(** * WinSparkle glue: the update orchestrator of BrowserOS on Windows

    A shallow embedding of chrome/browser/win/winsparkle_glue.h and
    winsparkle_glue.cc (a Chromium patch of packages/browseros) and
    the properties of its status state machine.

    The C++ file keeps its state in five namespace-level globals, posts
    work to the UI thread through [content::GetUIThreadTaskRunner] and
    talks to three outside parties: the registered observers, the
    WinSparkle library (the "foreign agent") and the browser (the "host").
    The embedding threads one [State] record through every function.  It
    holds the five globals, the observer list, the UI thread's task queue
    and a [trace] of every call made to an outside party, oldest first.
    Log statements ([LOG], [VLOG]) and the [DCHECK_CURRENTLY_ON] thread
    assertions change no state and are left out. *)

From Stdlib Require Import List String Ascii Bool Arith ZArith Lia.
From Stdlib Require Import DecimalString.
Import ListNotations.

Local Open Scope list_scope.

Module winsparkle_glue.

(** ** winsparkle_glue.h *)

(** [enum class WinSparkleStatus], in declaration order ([kIdle = 0]). *)
Inductive WinSparkleStatus : Type :=
  | kIdle
  | kChecking
  | kUpdateAvailable
  | kDownloading
  | kReadyToInstall
  | kInstalling
  | kUpToDate
  | kError.

(** A registered [WinSparkleObserver*], known by its identity only. *)
Definition Observer : Type := nat.

(** The three virtual methods of [class WinSparkleObserver]. *)
Inductive ObserverCall : Type :=
  | OnWinSparkleStatusChanged (status : WinSparkleStatus)
  | OnWinSparkleProgress (percent_complete : Z)
  | OnWinSparkleError (error_message : string).

(** ** The outside parties *)

(** The native entry points of the anonymous namespace ("WinSparkle
    Callbacks"), as values that can be handed to the agent. *)
Inductive NativeCallback : Type :=
  | cb_CanShutdown
  | cb_ShutdownRequest
  | cb_DidFindUpdate
  | cb_DidNotFindUpdate
  | cb_UpdateCancelled
  | cb_Error
  | cb_UpdateDownloaded.

(** The functions of [<winsparkle.h>] that the file calls. *)
Inductive AgentCall : Type :=
  | win_sparkle_set_eddsa_public_key (key : string)
  | win_sparkle_set_appcast_url (url : string)
  | win_sparkle_set_automatic_check_for_updates (state : Z)
  | win_sparkle_set_update_check_interval (interval : Z)
  | win_sparkle_set_can_shutdown_callback (cb : NativeCallback)
  | win_sparkle_set_shutdown_request_callback (cb : NativeCallback)
  | win_sparkle_set_did_find_update_callback (cb : NativeCallback)
  | win_sparkle_set_did_not_find_update_callback (cb : NativeCallback)
  | win_sparkle_set_update_cancelled_callback (cb : NativeCallback)
  | win_sparkle_set_error_callback (cb : NativeCallback)
  | win_sparkle_init
  | win_sparkle_cleanup
  | win_sparkle_check_update_with_ui.

(** The calls into the browser: [BuildState::SetUpdate] with
    [UpdateType::kNormalUpdate], [base::Version(version)] and no critical
    version, and [chrome::CloseAllBrowsersAndQuit]. *)
Inductive HostCall : Type :=
  | BuildState_SetUpdate (version : string)
  | CloseAllBrowsersAndQuit.

Inductive Effect : Type :=
  | Notify (o : Observer) (c : ObserverCall)
  | Agent (c : AgentCall)
  | Host (c : HostCall).

(** A closure bound with [base::BindOnce] and posted to the UI thread. *)
Inductive Task : Type :=
  | SetStatusTask (status : WinSparkleStatus) (error_message : string)
  | HandleUpdateReadyTask (version : string)
  | CheckUpdateWithUITask
  | CloseAllBrowsersAndQuitTask
  | CheckForUpdatesTask.

(** What the file reads from the browser process it runs in. *)
Record BrowserProcess : Type := mkBrowserProcess {
  (** whether [GetBuildState()] is non-null *)
  has_build_state : bool
}.

Record HostEnv : Type := mkHostEnv {
  (** [base::CommandLine::ForCurrentProcess()]: the switches and their values *)
  command_line : option (list (string * string));
  (** [g_browser_process], [None] for a null pointer *)
  g_browser_process : option BrowserProcess;
  (** [chrome::AreAllBrowsersCloseable()] *)
  AreAllBrowsersCloseable : bool
}.

Definition HasSwitch (cmd : list (string * string)) (name : string) : bool :=
  existsb (fun sw => String.eqb (fst sw) name) cmd.

Definition GetSwitchValueASCII (cmd : list (string * string)) (name : string)
  : string :=
  match find (fun sw => String.eqb (fst sw) name) cmd with
  | Some sw => snd sw
  | None => EmptyString
  end.

(** ** Global state *)

Record State : Type := mkState {
  g_initialized : bool;
  g_status : WinSparkleStatus;
  g_update_ready : bool;
  g_pending_version : string;
  g_last_error : string;
  (** [GetObservers()], in registration order *)
  observers : list Observer;
  (** tasks posted to the UI thread and not run yet, oldest first *)
  ui_tasks : list Task;
  (** tasks posted with [PostDelayedTask] whose delay (in seconds) has not
      elapsed yet *)
  delayed_tasks : list (Z * Task);
  (** every call made to an observer, the agent or the host, oldest first *)
  trace : list Effect
}.

(** The static initialisers: nothing initialised, [kIdle], empty strings. *)
Definition initial_state : State :=
  mkState false kIdle false EmptyString EmptyString [] [] [] [].

Definition set_g_initialized (b : bool) (s : State) : State :=
  mkState b (g_status s) (g_update_ready s) (g_pending_version s)
    (g_last_error s) (observers s) (ui_tasks s) (delayed_tasks s) (trace s).

Definition set_g_status (st : WinSparkleStatus) (s : State) : State :=
  mkState (g_initialized s) st (g_update_ready s) (g_pending_version s)
    (g_last_error s) (observers s) (ui_tasks s) (delayed_tasks s) (trace s).

Definition set_g_update_ready (b : bool) (s : State) : State :=
  mkState (g_initialized s) (g_status s) b (g_pending_version s)
    (g_last_error s) (observers s) (ui_tasks s) (delayed_tasks s) (trace s).

Definition set_g_pending_version (v : string) (s : State) : State :=
  mkState (g_initialized s) (g_status s) (g_update_ready s) v
    (g_last_error s) (observers s) (ui_tasks s) (delayed_tasks s) (trace s).

Definition set_g_last_error (m : string) (s : State) : State :=
  mkState (g_initialized s) (g_status s) (g_update_ready s)
    (g_pending_version s) m (observers s) (ui_tasks s) (delayed_tasks s)
    (trace s).

Definition set_observers (l : list Observer) (s : State) : State :=
  mkState (g_initialized s) (g_status s) (g_update_ready s)
    (g_pending_version s) (g_last_error s) l (ui_tasks s) (delayed_tasks s)
    (trace s).

Definition set_ui_tasks (q : list Task) (s : State) : State :=
  mkState (g_initialized s) (g_status s) (g_update_ready s)
    (g_pending_version s) (g_last_error s) (observers s) q (delayed_tasks s)
    (trace s).

Definition set_delayed_tasks (q : list (Z * Task)) (s : State) : State :=
  mkState (g_initialized s) (g_status s) (g_update_ready s)
    (g_pending_version s) (g_last_error s) (observers s) (ui_tasks s) q
    (trace s).

(** Record one call to an outside party. *)
Definition emit (e : Effect) (s : State) : State :=
  mkState (g_initialized s) (g_status s) (g_update_ready s)
    (g_pending_version s) (g_last_error s) (observers s) (ui_tasks s)
    (delayed_tasks s) (trace s ++ [e]).

(** Modelled from the spec: [content::GetUIThreadTaskRunner] is Chromium's
    and not among the sources.  Sections 4.3 and 5 give its contract: the
    queue preserves submission order and the UI thread runs one task at a
    time.  [PostTask] appends to the queue. *)
Definition PostTask (t : Task) (s : State) : State :=
  set_ui_tasks (ui_tasks s ++ [t]) s.

(** [PostDelayedTask]: the task waits outside the queue until its delay has
    elapsed. *)
Definition PostDelayedTask (t : Task) (seconds : Z) (s : State) : State :=
  set_delayed_tasks (delayed_tasks s ++ [(seconds, t)]) s.

(** [std::string::empty()]. *)
Definition empty (m : string) : bool :=
  match m with
  | EmptyString => true
  | String _ _ => false
  end.

(** ** winsparkle_glue.cc, anonymous namespace *)

Definition kAppcastUrl : string :=
  "https://cdn.browseros.com/appcast-windows-x64.xml"%string.

Definition kEdDSAPublicKey : string :=
  "LzQmcNuTsdB3/dsivo0eeN+jPfDoriRHAkkEJcfFs2A="%string.

Definition kUpdateCheckIntervalSeconds : Z := 3600.

(** Both null checks return early, after a warning. *)
Definition NotifyUpgradeReady (host : HostEnv) (version : string) (s : State)
  : State :=
  match g_browser_process host with
  | None => s
  | Some bp =>
      if has_build_state bp
      then emit (Host (BuildState_SetUpdate version)) s
      else s
  end.

(** The body of the loop over [GetObservers()] in [SetStatusOnUIThread]. *)
Definition notify_status (status : WinSparkleStatus) (error_message : string)
  (s : State) (observer : Observer) : State :=
  let s := emit (Notify observer (OnWinSparkleStatusChanged status)) s in
  if negb (empty error_message)
  then emit (Notify observer (OnWinSparkleError error_message)) s
  else s.

Definition SetStatusOnUIThread (status : WinSparkleStatus)
  (error_message : string) (s : State) : State :=
  let s := set_g_status status s in
  let s := if negb (empty error_message)
           then set_g_last_error error_message s
           else s in
  fold_left (notify_status status error_message) (observers s) s.

(** The default argument [error_message = std::string()] is written out at
    the call sites. *)
Definition PostStatusChange (status : WinSparkleStatus)
  (error_message : string) (s : State) : State :=
  PostTask (SetStatusTask status error_message) s.

Definition HandleUpdateReadyOnUIThread (host : HostEnv) (version : string)
  (s : State) : State :=
  let s := set_g_update_ready true s in
  let s := set_g_pending_version version s in
  let s := SetStatusOnUIThread kReadyToInstall EmptyString s in
  NotifyUpgradeReady host version s.

(** The one callback that answers on the agent's thread; it changes no
    state. *)
Definition CanShutdownCallback (host : HostEnv) : Z :=
  if AreAllBrowsersCloseable host then 1 else 0.

Definition ShutdownRequestCallback (s : State) : State :=
  PostTask CloseAllBrowsersAndQuitTask s.

Definition DidFindUpdateCallback (s : State) : State :=
  PostStatusChange kUpdateAvailable EmptyString s.

Definition DidNotFindUpdateCallback (s : State) : State :=
  PostStatusChange kUpToDate EmptyString s.

Definition UpdateCancelledCallback (s : State) : State :=
  PostStatusChange kIdle EmptyString s.

Definition ErrorCallback (s : State) : State :=
  PostStatusChange kError "Update check failed"%string s.

Definition UpdateDownloadedCallback (s : State) : State :=
  PostTask (HandleUpdateReadyTask "latest"%string) s.

(** ** winsparkle_glue.cc, public functions *)

Definition Initialize (host : HostEnv) (s : State) : State :=
  if g_initialized s then s
  else
    let cmd := command_line host in
    let appcast_url :=
      match cmd with
      | Some c =>
          if HasSwitch c "winsparkle-appcast-url"%string
          then GetSwitchValueASCII c "winsparkle-appcast-url"%string
          else kAppcastUrl
      | None => kAppcastUrl
      end in
    let s := emit (Agent (win_sparkle_set_eddsa_public_key kEdDSAPublicKey)) s in
    let s := emit (Agent (win_sparkle_set_appcast_url appcast_url)) s in
    let s := emit (Agent (win_sparkle_set_automatic_check_for_updates 1)) s in
    let s := emit (Agent (win_sparkle_set_update_check_interval
                            kUpdateCheckIntervalSeconds)) s in
    let s := emit (Agent (win_sparkle_set_can_shutdown_callback
                            cb_CanShutdown)) s in
    let s := emit (Agent (win_sparkle_set_shutdown_request_callback
                            cb_ShutdownRequest)) s in
    let s := emit (Agent (win_sparkle_set_did_find_update_callback
                            cb_DidFindUpdate)) s in
    let s := emit (Agent (win_sparkle_set_did_not_find_update_callback
                            cb_DidNotFindUpdate)) s in
    let s := emit (Agent (win_sparkle_set_update_cancelled_callback
                            cb_UpdateCancelled)) s in
    let s := emit (Agent (win_sparkle_set_error_callback cb_Error)) s in
    let s := emit (Agent win_sparkle_init) s in
    let s := set_g_initialized true s in
    let s := set_g_status kIdle s in
    match cmd with
    | Some c =>
        if HasSwitch c "winsparkle-force-check"%string
        then PostDelayedTask CheckForUpdatesTask 2 s
        else s
    | None => s
    end.

Definition Cleanup (s : State) : State :=
  if negb (g_initialized s) then s
  else
    let s := emit (Agent win_sparkle_cleanup) s in
    let s := set_g_initialized false s in
    let s := set_g_status kIdle s in
    let s := set_g_update_ready false s in
    let s := set_g_pending_version EmptyString s in
    set_g_last_error EmptyString s.

Definition IsEnabled (s : State) : bool := g_initialized s.

Definition CheckForUpdates (s : State) : State :=
  if negb (g_initialized s) then s
  else
    let s := set_g_status kChecking s in
    let s := fold_left
               (fun s observer =>
                  emit (Notify observer (OnWinSparkleStatusChanged kChecking)) s)
               (observers s) s in
    PostTask CheckUpdateWithUITask s.

Definition IsUpdateReady (s : State) : bool := g_update_ready s.

Definition GetStatus (s : State) : WinSparkleStatus := g_status s.

(** Modelled from the spec: [base::ObserverList] is Chromium's and not among
    the sources.  Section 4.5 asks for add and remove by identity; the list
    holds an observer at most once. *)
Definition AddObserver (observer : Observer) (s : State) : State :=
  if existsb (Nat.eqb observer) (observers s) then s
  else set_observers (observers s ++ [observer]) s.

Definition RemoveObserver (observer : Observer) (s : State) : State :=
  set_observers (filter (fun o => negb (Nat.eqb observer o)) (observers s)) s.

(** ** The UI thread *)

(** Run one bound closure.  The lambda posted by [CheckForUpdates] tests
    [g_initialized] again when it runs. *)
Definition run_task (host : HostEnv) (t : Task) (s : State) : State :=
  match t with
  | SetStatusTask status error_message =>
      SetStatusOnUIThread status error_message s
  | HandleUpdateReadyTask version => HandleUpdateReadyOnUIThread host version s
  | CheckUpdateWithUITask =>
      if g_initialized s then emit (Agent win_sparkle_check_update_with_ui) s
      else s
  | CloseAllBrowsersAndQuitTask => emit (Host CloseAllBrowsersAndQuit) s
  | CheckForUpdatesTask => CheckForUpdates s
  end.

(** The UI thread takes the oldest task off its queue and runs it. *)
Definition RunNextTask (host : HostEnv) (s : State) : State :=
  match ui_tasks s with
  | [] => s
  | t :: rest => run_task host t (set_ui_tasks rest s)
  end.

(** The oldest delayed task has waited long enough and joins the queue. *)
Definition DelayElapsed (s : State) : State :=
  match delayed_tasks s with
  | [] => s
  | (_, t) :: rest => PostTask t (set_delayed_tasks rest s)
  end.

(** An upper bound on the number of turns the queue needs: a
    [CheckForUpdatesTask] posts one more task, the others post none. *)
Definition task_weight (t : Task) : nat :=
  match t with
  | CheckForUpdatesTask => 2
  | _ => 1
  end.

Definition queue_weight (q : list Task) : nat :=
  fold_right (fun t n => task_weight t + n) 0 q.

Fixpoint run_turns (host : HostEnv) (turns : nat) (s : State) : State :=
  match turns with
  | O => s
  | S n => run_turns host n (RunNextTask host s)
  end.

(** Let the UI thread run until its queue is empty. *)
Definition drain (host : HostEnv) (s : State) : State :=
  run_turns host (queue_weight (ui_tasks s)) s.

(** ** Executions *)

(** The agent, on its own thread, enters one of the native callbacks. *)
Definition invoke (cb : NativeCallback) (s : State) : State :=
  match cb with
  | cb_CanShutdown => s
  | cb_ShutdownRequest => ShutdownRequestCallback s
  | cb_DidFindUpdate => DidFindUpdateCallback s
  | cb_DidNotFindUpdate => DidNotFindUpdateCallback s
  | cb_UpdateCancelled => UpdateCancelledCallback s
  | cb_Error => ErrorCallback s
  | cb_UpdateDownloaded => UpdateDownloadedCallback s
  end.

(** Everything that can happen to the orchestrator. *)
Inductive Event : Type :=
  | EvInitialize
  | EvCleanup
  | EvCheckForUpdates
  | EvAddObserver (o : Observer)
  | EvRemoveObserver (o : Observer)
  | EvCallback (cb : NativeCallback)
  | EvRunTask
  | EvDelayElapsed.

Definition step (host : HostEnv) (s : State) (e : Event) : State :=
  match e with
  | EvInitialize => Initialize host s
  | EvCleanup => Cleanup s
  | EvCheckForUpdates => CheckForUpdates s
  | EvAddObserver o => AddObserver o s
  | EvRemoveObserver o => RemoveObserver o s
  | EvCallback cb => invoke cb s
  | EvRunTask => RunNextTask host s
  | EvDelayElapsed => DelayElapsed s
  end.

Definition run (host : HostEnv) (es : list Event) (s : State) : State :=
  fold_left (step host) es s.

(** ** The agent's side

    Section 6 of the specification names the events of the foreign agent.
    The agent can enter the orchestrator only through a callback that
    [Initialize] handed to it, so an event reaches the code through the
    registration made for it, if there is one. *)
Inductive AgentEvent : Type :=
  | OnCheckStarted
  | OnUpdateFound
  | OnNoUpdateFound
  | OnCancelledByUser
  | OnDownloadProgress (percent : Z)
  | OnDownloadComplete
  | OnError (message : string)
  | OnShutdownRequested.

(** The callback that one agent call registers for an event.  None of the
    [win_sparkle_set_*] functions the file calls is for the start of a
    check, the progress of a download or its completion. *)
Definition registers (ev : AgentEvent) (e : Effect) : option NativeCallback :=
  match ev, e with
  | OnUpdateFound, Agent (win_sparkle_set_did_find_update_callback cb) => Some cb
  | OnNoUpdateFound, Agent (win_sparkle_set_did_not_find_update_callback cb) =>
      Some cb
  | OnCancelledByUser, Agent (win_sparkle_set_update_cancelled_callback cb) =>
      Some cb
  | OnError _, Agent (win_sparkle_set_error_callback cb) => Some cb
  | OnShutdownRequested, Agent (win_sparkle_set_shutdown_request_callback cb) =>
      Some cb
  | _, _ => None
  end.

(** The latest registration wins. *)
Definition registered_callback (ev : AgentEvent) (tr : list Effect)
  : option NativeCallback :=
  fold_left (fun cur e => match registers ev e with
                          | Some cb => Some cb
                          | None => cur
                          end) tr None.

(** The agent raises an event: the registered callback runs on the agent's
    thread.  The callbacks take no argument, the payload of the event stays
    behind. *)
Definition deliver (s : State) (ev : AgentEvent) : State :=
  match registered_callback ev (trace s) with
  | Some cb => invoke cb s
  | None => s
  end.

(** The transition table of section 4.2 of the specification, in its own
    words, row by row; the request to shut down has no row and changes no
    status. *)
Definition table_4_2 (st : WinSparkleStatus) (ev : AgentEvent)
  : WinSparkleStatus :=
  match ev with
  | OnCheckStarted => kChecking
  | OnUpdateFound => kUpdateAvailable
  | OnNoUpdateFound => kUpToDate
  | OnCancelledByUser => kIdle
  | OnDownloadProgress _ => kDownloading
  | OnDownloadComplete => kReadyToInstall
  | OnError _ => kError
  | OnShutdownRequested => st
  end.

(** The transition each native entry point makes once its task has run, as
    read off the code. *)
Definition transition (st : WinSparkleStatus) (cb : NativeCallback)
  : WinSparkleStatus :=
  match cb with
  | cb_CanShutdown => st
  | cb_ShutdownRequest => st
  | cb_DidFindUpdate => kUpdateAvailable
  | cb_DidNotFindUpdate => kUpToDate
  | cb_UpdateCancelled => kIdle
  | cb_Error => kError
  | cb_UpdateDownloaded => kReadyToInstall
  end.

End winsparkle_glue.

Import winsparkle_glue.

(** * Vocabulary of the statements *)

(** The calls [SetStatusOnUIThread] makes to one observer, then to all. *)
Definition calls_to (status : WinSparkleStatus) (error_message : string)
  (o : Observer) : list Effect :=
  Notify o (OnWinSparkleStatusChanged status)
  :: (if negb (empty error_message)
      then [Notify o (OnWinSparkleError error_message)]
      else []).

Definition status_notifications (status : WinSparkleStatus)
  (error_message : string) (obs : list Observer) : list Effect :=
  flat_map (calls_to status error_message) obs.

(** The calls the loop of [CheckForUpdates] makes. *)
Definition checking_notifications (obs : list Observer) : list Effect :=
  map (fun o => Notify o (OnWinSparkleStatusChanged kChecking)) obs.

(** A state with another trace. *)
Definition with_trace (tr : list Effect) (s : State) : State :=
  mkState (g_initialized s) (g_status s) (g_update_ready s)
    (g_pending_version s) (g_last_error s) (observers s) (ui_tasks s)
    (delayed_tasks s) tr.

(** What a step added to the trace. *)
Definition new_effects (before after : State) : list Effect :=
  skipn (List.length (trace before)) (trace after).

(** The five globals of the C++ file. *)
Definition Globals : Type :=
  (bool * WinSparkleStatus * bool * string * string)%type.

Definition globals (s : State) : Globals :=
  (g_initialized s, g_status s, g_update_ready s, g_pending_version s,
   g_last_error s).

(** What running a task does to the globals. *)
Definition task_globals (g : Globals) (t : Task) : Globals :=
  let '(init, st, ready, ver, err) := g in
  match t with
  | SetStatusTask status error_message =>
      (init, status, ready, ver,
       if empty error_message then err else error_message)
  | HandleUpdateReadyTask version => (init, kReadyToInstall, true, version, err)
  | CheckUpdateWithUITask => g
  | CloseAllBrowsersAndQuitTask => g
  | CheckForUpdatesTask => if init then (init, kChecking, ready, ver, err) else g
  end.

(** The tasks a task posts while it runs. *)
Definition posted_by (init : bool) (t : Task) : list Task :=
  match t with
  | CheckForUpdatesTask => if init then [CheckUpdateWithUITask] else []
  | _ => []
  end.

(** The task an entry point posts. *)
Definition task_of (cb : NativeCallback) : option Task :=
  match cb with
  | cb_CanShutdown => None
  | cb_ShutdownRequest => Some CloseAllBrowsersAndQuitTask
  | cb_DidFindUpdate => Some (SetStatusTask kUpdateAvailable EmptyString)
  | cb_DidNotFindUpdate => Some (SetStatusTask kUpToDate EmptyString)
  | cb_UpdateCancelled => Some (SetStatusTask kIdle EmptyString)
  | cb_Error => Some (SetStatusTask kError "Update check failed"%string)
  | cb_UpdateDownloaded => Some (HandleUpdateReadyTask "latest"%string)
  end.

(** Schedules: the agent enters callbacks while the UI thread takes turns. *)
Definition callback_or_turn (e : Event) : bool :=
  match e with
  | EvCallback _ | EvRunTask => true
  | _ => false
  end.

Definition callbacks_of (es : list Event) : list NativeCallback :=
  flat_map (fun e => match e with EvCallback cb => [cb] | _ => [] end) es.

Definition is_cleanup (e : Event) : bool :=
  match e with
  | EvCleanup => true
  | _ => false
  end.

Definition no_cleanup (es : list Event) : bool :=
  forallb (fun e => negb (is_cleanup e)) es.

(** The agent holds no callback before the first [Initialize], so it can
    enter none. *)
Fixpoint callbacks_follow_Initialize (started : bool) (es : list Event)
  : bool :=
  match es with
  | [] => true
  | EvInitialize :: rest => callbacks_follow_Initialize true rest
  | EvCallback _ :: rest => started && callbacks_follow_Initialize started rest
  | _ :: rest => callbacks_follow_Initialize started rest
  end.

(** The event is the UI thread running an error report. *)
Definition reports_error (s : State) (e : Event) : bool :=
  match e, ui_tasks s with
  | EvRunTask, SetStatusTask _ error_message :: _ => negb (empty error_message)
  | _, _ => false
  end.

(** The feed the agent is given, and whether a check is forced at start. *)
Definition appcast_url (host : HostEnv) : string :=
  match command_line host with
  | Some c =>
      if HasSwitch c "winsparkle-appcast-url"%string
      then GetSwitchValueASCII c "winsparkle-appcast-url"%string
      else kAppcastUrl
  | None => kAppcastUrl
  end.

Definition force_check (host : HostEnv) : bool :=
  match command_line host with
  | Some c => HasSwitch c "winsparkle-force-check"%string
  | None => false
  end.

(** The calls [Initialize] makes to the agent, in order. *)
Definition Initialize_calls (host : HostEnv) : list Effect :=
  [ Agent (win_sparkle_set_eddsa_public_key kEdDSAPublicKey);
    Agent (win_sparkle_set_appcast_url (appcast_url host));
    Agent (win_sparkle_set_automatic_check_for_updates 1);
    Agent (win_sparkle_set_update_check_interval kUpdateCheckIntervalSeconds);
    Agent (win_sparkle_set_can_shutdown_callback cb_CanShutdown);
    Agent (win_sparkle_set_shutdown_request_callback cb_ShutdownRequest);
    Agent (win_sparkle_set_did_find_update_callback cb_DidFindUpdate);
    Agent (win_sparkle_set_did_not_find_update_callback cb_DidNotFindUpdate);
    Agent (win_sparkle_set_update_cancelled_callback cb_UpdateCancelled);
    Agent (win_sparkle_set_error_callback cb_Error);
    Agent win_sparkle_init ].

(** Calls to the update indicator of the host. *)
Definition is_indicator_call (e : Effect) : bool :=
  match e with
  | Host (BuildState_SetUpdate _) => true
  | _ => false
  end.

Definition indicator_notifications (tr : list Effect) : nat :=
  List.length (filter is_indicator_call tr).

Definition build_state_available (host : HostEnv) : bool :=
  match g_browser_process host with
  | Some bp => has_build_state bp
  | None => false
  end.

(** Registrations of native callbacks with the agent. *)
Definition is_registration (e : Effect) : bool :=
  match e with
  | Agent (win_sparkle_set_can_shutdown_callback _)
  | Agent (win_sparkle_set_shutdown_request_callback _)
  | Agent (win_sparkle_set_did_find_update_callback _)
  | Agent (win_sparkle_set_did_not_find_update_callback _)
  | Agent (win_sparkle_set_update_cancelled_callback _)
  | Agent (win_sparkle_set_error_callback _) => true
  | _ => false
  end.

Definition registrations (tr : list Effect) : list Effect :=
  filter is_registration tr.

Definition the_six_registrations : list Effect :=
  [ Agent (win_sparkle_set_can_shutdown_callback cb_CanShutdown);
    Agent (win_sparkle_set_shutdown_request_callback cb_ShutdownRequest);
    Agent (win_sparkle_set_did_find_update_callback cb_DidFindUpdate);
    Agent (win_sparkle_set_did_not_find_update_callback cb_DidNotFindUpdate);
    Agent (win_sparkle_set_update_cancelled_callback cb_UpdateCancelled);
    Agent (win_sparkle_set_error_callback cb_Error) ].

(** The invariant behind the placeholder version: no pending task can make
    the status [kReadyToInstall] with another version. *)
Definition task_latest (t : Task) : Prop :=
  match t with
  | SetStatusTask status _ => status <> kReadyToInstall
  | HandleUpdateReadyTask version => version = "latest"%string
  | _ => True
  end.

Definition effect_latest (e : Effect) : Prop :=
  match e with
  | Host (BuildState_SetUpdate version) => version = "latest"%string
  | _ => True
  end.

Definition latest_invariant (s : State) : Prop :=
  (g_status s = kReadyToInstall -> g_pending_version s = "latest"%string)
  /\ Forall task_latest (ui_tasks s)
  /\ Forall (fun d => task_latest (snd d)) (delayed_tasks s)
  /\ Forall effect_latest (trace s).

(** Nothing has happened yet: the globals are as initialised and no task
    waits. *)
Definition fresh (s : State) : Prop :=
  globals s = (false, kIdle, false, EmptyString, EmptyString)
  /\ ui_tasks s = [] /\ delayed_tasks s = [].

(** ** Concrete hosts and states used in the examples *)

(** A browser with its build state, no switch on the command line. *)
Definition plain_host : HostEnv :=
  mkHostEnv (Some []) (Some (mkBrowserProcess true)) true.

(** No browser process, as late in shutdown. *)
Definition headless_host : HostEnv := mkHostEnv (Some []) None true.

(** Started with the two testing switches. *)
Definition testing_host : HostEnv :=
  mkHostEnv
    (Some [("winsparkle-appcast-url"%string, "http://localhost/a.xml"%string);
           ("winsparkle-force-check"%string, EmptyString)])
    (Some (mkBrowserProcess true)) true.

(** The agent finds an update, then fails, then the user cancels; the UI
    thread takes one turn in between. *)
Definition found_failed_cancelled : list Event :=
  [EvCallback cb_DidFindUpdate; EvRunTask; EvCallback cb_Error;
   EvCallback cb_UpdateCancelled].

(** Cancellation, an error, no update and a new check, each processed. *)
Definition later_events : list Event :=
  [EvCallback cb_UpdateCancelled; EvRunTask; EvCallback cb_Error; EvRunTask;
   EvCallback cb_DidNotFindUpdate; EvRunTask; EvCheckForUpdates; EvRunTask].

(** A session: start, watch, check, an update is found, downloaded, and
    then an error is reported. *)
Definition busy_session : list Event :=
  [EvInitialize; EvAddObserver 7; EvCheckForUpdates; EvRunTask;
   EvCallback cb_DidFindUpdate; EvRunTask; EvCallback cb_UpdateDownloaded;
   EvRunTask; EvCallback cb_Error; EvRunTask; EvInitialize].

(** An initialised controller with one observer, asked to check. *)
Definition watched_check : State :=
  CheckForUpdates (AddObserver 7 (Initialize plain_host initial_state)).

(** * The callers of the glue *)

(** ** winsparkle_version_updater_win.cc

    The updater behind the help page.  It registers itself as an observer
    of the glue and turns what it hears into runs of the status callback
    of the page. *)
Module WinSparkleVersionUpdater.

(** [VersionUpdater::Status] is declared in Chromium's version_updater.h,
    which is not among the sources; these are the values the files use. *)
Inductive Status : Type :=
  | CHECKING
  | UPDATING
  | NEARLY_UPDATED
  | UPDATED
  | FAILED
  | DISABLED.

(** The arguments of one run of a [StatusCallback]. *)
Record StatusCall : Type := mkStatusCall {
  status : Status;
  progress : Z;
  rollback : bool;
  powerwash : bool;
  version : string;
  update_size : Z;
  message : string
}.

(** A [StatusCallback] is known by its identity; [None] is the null
    callback. *)
Definition StatusCallback : Type := option nat.

Record Updater : Type := mkUpdater {
  (** the address of the object, under which the glue knows it *)
  this : Observer;
  status_callback_ : StatusCallback;
  (** every run of a status callback, oldest first *)
  ran : list (nat * StatusCall)
}.

(** [callback.Run(...)] on a callback that is not null. *)
Definition Run (cb : nat) (c : StatusCall) (u : Updater) : Updater :=
  mkUpdater (this u) (status_callback_ u) (ran u ++ [(cb, c)]).

Definition set_status_callback (cb : StatusCallback) (u : Updater) : Updater :=
  mkUpdater (this u) cb (ran u).

(** The constructor registers the object with the glue, the destructor
    removes it. *)
Definition constructor (o : Observer) (s : State) : Updater * State :=
  (mkUpdater o None [], AddObserver o s).

Definition destructor (u : Updater) (s : State) : State :=
  RemoveObserver (this u) s.

Definition OnWinSparkleStatusChanged (st : WinSparkleStatus) (u : Updater)
  : Updater :=
  match status_callback_ u with
  | None => u
  | Some cb =>
      let report update_status message :=
        Run cb (mkStatusCall update_status 0 false false EmptyString 0 message)
          u in
      match st with
      | kIdle => u
      | kChecking => report CHECKING EmptyString
      | kUpdateAvailable => report UPDATING EmptyString
      | kDownloading => report UPDATING EmptyString
      | kReadyToInstall | kInstalling => report NEARLY_UPDATED EmptyString
      | kUpToDate => report UPDATED EmptyString
      | kError => report FAILED "Update check failed"%string
      end
  end.

(** [base::NumberToString] of an [int]. *)
Definition NumberToString (n : Z) : string :=
  NilZero.string_of_int (Z.to_int n).

Definition OnWinSparkleProgress (percent_complete : Z) (u : Updater)
  : Updater :=
  match status_callback_ u with
  | None => u
  | Some cb =>
      let message :=
        ("Downloading update: " ++ NumberToString percent_complete ++ "%")%string
      in
      Run cb (mkStatusCall UPDATING percent_complete false false EmptyString 0
                message) u
  end.

(** The message of the glue is ASCII; its conversion to UTF-16 keeps the
    characters. *)
Definition OnWinSparkleError (error_message : string) (u : Updater)
  : Updater :=
  match status_callback_ u with
  | None => u
  | Some cb =>
      Run cb (mkStatusCall FAILED 0 false false EmptyString 0 error_message) u
  end.

(** The virtual call the glue makes on an observer. *)
Definition dispatch (u : Updater) (c : ObserverCall) : Updater :=
  match c with
  | winsparkle_glue.OnWinSparkleStatusChanged st =>
      OnWinSparkleStatusChanged st u
  | winsparkle_glue.OnWinSparkleProgress percent_complete =>
      OnWinSparkleProgress percent_complete u
  | winsparkle_glue.OnWinSparkleError error_message =>
      OnWinSparkleError error_message u
  end.

(** The glue calls its observers while it runs; the handlers above call
    nothing of the glue, so the updater after a step of the glue is the
    updater that has heard, in order, the calls addressed to it. *)
Definition react (u : Updater) (e : Effect) : Updater :=
  match e with
  | Notify o c => if Nat.eqb o (this u) then dispatch u c else u
  | _ => u
  end.

Definition observe (u : Updater) (effects : list Effect) : Updater :=
  fold_left react effects u.

(** [CheckForUpdate]; the promote callback is not used.  The call into
    the glue notifies the observers before it returns, this updater among
    them if it is registered. *)
Definition CheckForUpdate (status_callback : StatusCallback) (u : Updater)
  (s : State) : Updater * State :=
  let u := set_status_callback status_callback u in
  if negb (IsEnabled s) then
    (match status_callback_ u with
     | Some cb =>
         Run cb (mkStatusCall FAILED 0 false false EmptyString 0
                   "WinSparkle updater not available"%string) u
     | None => u
     end, s)
  else
    let u := match status_callback_ u with
             | Some cb =>
                 Run cb (mkStatusCall CHECKING 0 false false EmptyString 0
                           EmptyString) u
             | None => u
             end in
    (observe u (new_effects s (CheckForUpdates s)), CheckForUpdates s).

End WinSparkleVersionUpdater.

(** ** version_updater_winsparkle.cc *)
Module VersionUpdater.

Import WinSparkleVersionUpdater.

(** [VersionUpdaterBasic::CheckForUpdate]: one run of the callback, with
    what [UpgradeDetector::is_upgrade_available()] says. *)
Definition VersionUpdaterBasic_CheckForUpdate (is_upgrade_available : bool)
  (callback : nat) : nat * StatusCall :=
  let status := if is_upgrade_available then NEARLY_UPDATED else DISABLED in
  (callback, mkStatusCall status 0 false false EmptyString 0 EmptyString).

(** What [Create] returns: the updater of WinSparkle or the basic one. *)
Inductive Created : Type :=
  | WinSparkle (u : Updater)
  | Basic.

(** [ENABLE_WINSPARKLE] is a build flag; [o] is the address of the object
    made. *)
Definition Create (ENABLE_WINSPARKLE : bool) (o : Observer) (s : State)
  : Created * State :=
  if ENABLE_WINSPARKLE && IsEnabled s
  then let '(u, s) := constructor o s in (WinSparkle u, s)
  else (Basic, s).

End VersionUpdater.

(** ** chrome_browser_main_extra_parts_win.cc *)
Module ChromeBrowserMainExtraPartsWin.

Definition PostBrowserStart (ENABLE_WINSPARKLE : bool) (host : HostEnv)
  (s : State) : State :=
  if ENABLE_WINSPARKLE then Initialize host s else s.

Definition PostMainMessageLoopRun (ENABLE_WINSPARKLE : bool) (s : State)
  : State :=
  if ENABLE_WINSPARKLE then Cleanup s else s.

End ChromeBrowserMainExtraPartsWin.

(** ** The glue and one updater together *)

Inductive WorldEvent : Type :=
  | OfGlue (e : Event)
  | PageChecks (status_callback : WinSparkleVersionUpdater.StatusCallback).

Definition World : Type := (WinSparkleVersionUpdater.Updater * State)%type.

Definition world_step (host : HostEnv) (w : World) (e : WorldEvent) : World :=
  let '(u, s) := w in
  match e with
  | OfGlue e =>
      (WinSparkleVersionUpdater.observe u (new_effects s (step host s e)),
       step host s e)
  | PageChecks status_callback =>
      WinSparkleVersionUpdater.CheckForUpdate status_callback u s
  end.

Definition world_run (host : HostEnv) (es : list WorldEvent) (w : World)
  : World :=
  fold_left (world_step host) es w.

(** * More vocabulary *)

(** How often an observer is in a list. *)
Definition registered (o : Observer) (obs : list Observer) : nat :=
  count_occ Nat.eq_dec obs o.

Definition count_effect (p : Effect -> bool) (tr : list Effect) : nat :=
  List.length (filter p tr).

Definition is_check_call (e : Effect) : bool :=
  match e with
  | Agent win_sparkle_check_update_with_ui => true
  | _ => false
  end.

Definition is_quit_call (e : Effect) : bool :=
  match e with
  | Host CloseAllBrowsersAndQuit => true
  | _ => false
  end.


(** The calls a task still owes to the agent and the host when it is
    queued: what it makes itself and what the task it posts makes. *)
Definition owed (host : HostEnv) (init : bool) (t : Task) : list Effect :=
  match t with
  | SetStatusTask _ _ => []
  | HandleUpdateReadyTask version =>
      if build_state_available host
      then [Host (BuildState_SetUpdate version)]
      else []
  | CheckUpdateWithUITask | CheckForUpdatesTask =>
      if init then [Agent win_sparkle_check_update_with_ui] else []
  | CloseAllBrowsersAndQuitTask => [Host CloseAllBrowsersAndQuit]
  end.

(** The order in which the agent accepts its calls: configuration and
    registration while it is stopped, [win_sparkle_init] to start,
    checks while it runs, [win_sparkle_cleanup] to stop. *)
Definition agent_accepts (running : bool) (c : AgentCall) : option bool :=
  match c with
  | win_sparkle_init => if running then None else Some true
  | win_sparkle_cleanup => if running then Some false else None
  | win_sparkle_check_update_with_ui => if running then Some true else None
  | _ => if running then None else Some false
  end.

Fixpoint agent_protocol (running : bool) (tr : list Effect) : option bool :=
  match tr with
  | [] => Some running
  | Agent c :: rest =>
      match agent_accepts running c with
      | Some running' => agent_protocol running' rest
      | None => None
      end
  | _ :: rest => agent_protocol running rest
  end.

(** What the code can queue and what it can tell an observer. *)
Definition task_expected (t : Task) : Prop :=
  match t with
  | SetStatusTask st error_message =>
      (st = kError /\ error_message = "Update check failed"%string)
      \/ ((st = kUpdateAvailable \/ st = kUpToDate \/ st = kIdle)
          /\ error_message = EmptyString)
  | HandleUpdateReadyTask version => version = "latest"%string
  | _ => True
  end.

Definition status_expected (st : WinSparkleStatus) : Prop :=
  st <> kDownloading /\ st <> kInstalling.

Definition effect_expected (e : Effect) : Prop :=
  match e with
  | Notify _ (OnWinSparkleStatusChanged st) => status_expected st
  | Notify _ (OnWinSparkleProgress _) => False
  | Notify _ (OnWinSparkleError error_message) =>
      error_message = "Update check failed"%string
  | _ => True
  end.

Definition coherent (s : State) : Prop :=
  Forall task_expected (ui_tasks s)
  /\ Forall (fun d => snd d = CheckForUpdatesTask) (delayed_tasks s)
  /\ status_expected (g_status s)
  /\ (g_status s = kError -> g_last_error s = "Update check failed"%string)
  /\ (g_last_error s = EmptyString
      \/ g_last_error s = "Update check failed"%string)
  /\ g_pending_version s
     = (if g_update_ready s then "latest"%string else EmptyString)
  /\ (g_status s = kReadyToInstall -> g_update_ready s = true)
  /\ Forall effect_expected (trace s).

(** What a step of the glue tells each registered observer. *)
Definition told (status : WinSparkleStatus) (error_message : string)
  : list ObserverCall :=
  OnWinSparkleStatusChanged status
  :: (if negb (empty error_message)
      then [OnWinSparkleError error_message]
      else []).

Definition task_says (init : bool) (t : Task) : list ObserverCall :=
  match t with
  | SetStatusTask status error_message => told status error_message
  | HandleUpdateReadyTask _ => [OnWinSparkleStatusChanged kReadyToInstall]
  | CheckForUpdatesTask =>
      if init then [OnWinSparkleStatusChanged kChecking] else []
  | _ => []
  end.

Definition step_says (s : State) (e : Event) : list ObserverCall :=
  match e with
  | EvCheckForUpdates => task_says (g_initialized s) CheckForUpdatesTask
  | EvRunTask =>
      match ui_tasks s with
      | t :: _ => task_says (g_initialized s) t
      | [] => []
      end
  | _ => []
  end.

(** The two events that change the list of observers. *)
Definition changes_observers (e : Event) : bool :=
  match e with
  | EvAddObserver _ | EvRemoveObserver _ => true
  | _ => false
  end.

(** The calls addressed to one observer. *)
Definition heard_by (o : Observer) (effects : list Effect)
  : list ObserverCall :=
  flat_map (fun e => match e with
                     | Notify o' c => if Nat.eqb o' o then [c] else []
                     | _ => []
                     end) effects.

(** ** The page *)

(** A run of the status callback as the updater makes them: only the
    status and the message vary. *)
Definition report (st : WinSparkleVersionUpdater.Status) (text : string)
  : WinSparkleVersionUpdater.StatusCall :=
  WinSparkleVersionUpdater.mkStatusCall st 0 false false EmptyString 0 text.

(** The runs one call of the glue causes in an updater that holds the
    callback [scb]. *)
Definition reports (scb : WinSparkleVersionUpdater.StatusCallback)
  (c : ObserverCall) : list (nat * WinSparkleVersionUpdater.StatusCall) :=
  WinSparkleVersionUpdater.ran
    (WinSparkleVersionUpdater.dispatch
       (WinSparkleVersionUpdater.mkUpdater 0 scb []) c).

(** What the page is told, through the callback [page], when the agent
    has entered a native callback and its task has run. *)
Definition page_reports (page : nat) (cb : NativeCallback)
  : list (nat * WinSparkleVersionUpdater.StatusCall) :=
  match cb with
  | cb_CanShutdown | cb_ShutdownRequest | cb_UpdateCancelled => []
  | cb_DidFindUpdate =>
      [(page, report WinSparkleVersionUpdater.UPDATING EmptyString)]
  | cb_DidNotFindUpdate =>
      [(page, report WinSparkleVersionUpdater.UPDATED EmptyString)]
  | cb_Error =>
      [(page, report WinSparkleVersionUpdater.FAILED
                "Update check failed"%string);
       (page, report WinSparkleVersionUpdater.FAILED
                "Update check failed"%string)]
  | cb_UpdateDownloaded =>
      [(page, report WinSparkleVersionUpdater.NEARLY_UPDATED EmptyString)]
  end.

(** The runs the page can see. *)
Definition call_expected (c : WinSparkleVersionUpdater.StatusCall) : Prop :=
  exists st text,
    c = report st text
    /\ st <> WinSparkleVersionUpdater.DISABLED
    /\ (text = EmptyString
        \/ (st = WinSparkleVersionUpdater.FAILED
            /\ (text = "Update check failed"%string
                \/ text = "WinSparkle updater not available"%string))).

(** * Closed forms of the functions with a loop *)

Lemma notify_status_closed status error_message s o :
  notify_status status error_message s o
  = with_trace (trace s ++ calls_to status error_message o) s.
Proof.
  unfold notify_status, calls_to, with_trace, emit.
  destruct (negb (empty error_message)); cbn; now rewrite <- ?app_assoc.
Qed.

Lemma fold_notify_status status error_message obs : forall s,
  fold_left (notify_status status error_message) obs s
  = with_trace (trace s ++ status_notifications status error_message obs) s.
Proof.
  induction obs as [|o obs IH]; intros s.
  - destruct s; unfold with_trace; simpl. now rewrite app_nil_r.
  - cbn [fold_left]. rewrite IH, notify_status_closed.
    unfold status_notifications, with_trace; cbn [flat_map trace].
    now rewrite <- app_assoc.
Qed.

Lemma SetStatusOnUIThread_closed status error_message s :
  SetStatusOnUIThread status error_message s
  = mkState (g_initialized s) status (g_update_ready s) (g_pending_version s)
      (if empty error_message then g_last_error s else error_message)
      (observers s) (ui_tasks s) (delayed_tasks s)
      (trace s ++ status_notifications status error_message (observers s)).
Proof.
  unfold SetStatusOnUIThread. rewrite fold_notify_status.
  destruct (empty error_message); reflexivity.
Qed.

Lemma fold_notify_checking obs : forall s,
  fold_left
    (fun s observer =>
       emit (Notify observer (OnWinSparkleStatusChanged kChecking)) s) obs s
  = with_trace (trace s ++ checking_notifications obs) s.
Proof.
  induction obs as [|o obs IH]; intros s.
  - destruct s; unfold with_trace; simpl. now rewrite app_nil_r.
  - cbn [fold_left checking_notifications map]. rewrite IH.
    unfold with_trace, emit; cbn. now rewrite <- app_assoc.
Qed.

Lemma CheckForUpdates_unfold s :
  CheckForUpdates s
  = if g_initialized s
    then mkState (g_initialized s) kChecking (g_update_ready s)
           (g_pending_version s) (g_last_error s) (observers s)
           (ui_tasks s ++ [CheckUpdateWithUITask]) (delayed_tasks s)
           (trace s ++ checking_notifications (observers s))
    else s.
Proof.
  unfold CheckForUpdates. destruct (g_initialized s) eqn:Hinit; cbn [negb];
    trivial.
  rewrite fold_notify_checking.
  unfold PostTask, with_trace, set_ui_tasks, set_g_status; cbn.
  now rewrite Hinit.
Qed.

(** The straight-line functions nest their updates of the state; their
    closed forms are computed once, on a state given by its fields. *)

Lemma Initialize_closed host s :
  Initialize host s
  = if g_initialized s then s
    else mkState true kIdle (g_update_ready s) (g_pending_version s)
           (g_last_error s) (observers s) (ui_tasks s)
           (delayed_tasks s
            ++ (if force_check host then [(2%Z, CheckForUpdatesTask)] else []))
           (trace s ++ Initialize_calls host).
Proof.
  destruct s as [init st ready ver err obs q dq tr].
  unfold Initialize. cbn [g_initialized].
  destruct init; [reflexivity|].
  cbv beta zeta iota
    delta [emit set_g_initialized set_g_status set_delayed_tasks
           PostDelayedTask g_initialized g_status g_update_ready
           g_pending_version g_last_error observers ui_tasks delayed_tasks
           trace].
  unfold Initialize_calls, appcast_url, force_check.
  rewrite <- !app_assoc. cbn [app].
  destruct (command_line host) as [c|]; [|now rewrite app_nil_r].
  destruct (HasSwitch c "winsparkle-force-check"); [reflexivity|].
  now rewrite app_nil_r.
Qed.

Lemma Cleanup_closed s :
  Cleanup s
  = if g_initialized s
    then mkState false kIdle false EmptyString EmptyString (observers s)
           (ui_tasks s) (delayed_tasks s)
           (trace s ++ [Agent win_sparkle_cleanup])
    else s.
Proof.
  destruct s as [init st ready ver err obs q dq tr].
  unfold Cleanup. cbn [g_initialized].
  destruct init; reflexivity.
Qed.

Lemma HandleUpdateReadyOnUIThread_closed host version s :
  HandleUpdateReadyOnUIThread host version s
  = mkState (g_initialized s) kReadyToInstall true version (g_last_error s)
      (observers s) (ui_tasks s) (delayed_tasks s)
      (trace s
       ++ status_notifications kReadyToInstall EmptyString (observers s)
       ++ (if build_state_available host
           then [Host (BuildState_SetUpdate version)]
           else [])).
Proof.
  destruct s as [init st ready ver err obs q dq tr].
  unfold HandleUpdateReadyOnUIThread. rewrite SetStatusOnUIThread_closed.
  unfold NotifyUpgradeReady, build_state_available.
  destruct (g_browser_process host) as [bp|]; cbn; [|now rewrite app_nil_r].
  destruct (has_build_state bp); unfold emit; cbn.
  - now rewrite <- app_assoc.
  - now rewrite app_nil_r.
Qed.

(** * Proof automation: rewrite one function to its closed form, unfold
    one shallow definition, or split one branch *)

Ltac glue_step :=
  first
    [ rewrite SetStatusOnUIThread_closed
    | rewrite CheckForUpdates_unfold
    | rewrite Initialize_closed
    | rewrite Cleanup_closed
    | rewrite HandleUpdateReadyOnUIThread_closed
    | progress unfold step, invoke, RunNextTask, run_task, DelayElapsed,
        ShutdownRequestCallback, DidFindUpdateCallback,
        DidNotFindUpdateCallback, UpdateCancelledCallback, ErrorCallback,
        UpdateDownloadedCallback, PostStatusChange, PostTask, PostDelayedTask,
        AddObserver, RemoveObserver, IsUpdateReady, GetStatus, IsEnabled
    | progress cbn [g_initialized g_status g_update_ready g_pending_version
                    g_last_error observers ui_tasks delayed_tasks trace
                    set_ui_tasks set_delayed_tasks set_observers emit
                    with_trace]
    | match goal with
      | |- context [match ?x with _ => _ end] => destruct x eqn:?
      end ].

Ltac glue := repeat glue_step; cbn in *.

Ltac glue_solve := glue; subst; cbn in *; auto; try congruence.

(** * The code on concrete inputs *)

Example Initialize_registers_with_the_agent :
  Initialize plain_host initial_state
  = mkState true kIdle false EmptyString EmptyString [] [] []
      (Initialize_calls plain_host).
Proof. reflexivity. Qed.

Example Initialize_reads_the_switches :
  delayed_tasks (Initialize testing_host initial_state)
  = [(2%Z, CheckForUpdatesTask)]
  /\ In (Agent (win_sparkle_set_appcast_url "http://localhost/a.xml"%string))
       (trace (Initialize testing_host initial_state)).
Proof. split; [reflexivity|]. cbn. auto. Qed.

Example forced_check_runs_after_the_delay :
  new_effects (Initialize testing_host initial_state)
    (drain testing_host (DelayElapsed (Initialize testing_host initial_state)))
  = [Agent win_sparkle_check_update_with_ui].
Proof. reflexivity. Qed.

Example check_then_download :
  let s := run plain_host
             [EvInitialize; EvAddObserver 7; EvCheckForUpdates; EvRunTask;
              EvCallback cb_UpdateDownloaded; EvRunTask] initial_state in
  GetStatus s = kReadyToInstall
  /\ IsUpdateReady s = true
  /\ new_effects (Initialize plain_host initial_state) s
     = [Notify 7 (OnWinSparkleStatusChanged kChecking);
        Agent win_sparkle_check_update_with_ui;
        Notify 7 (OnWinSparkleStatusChanged kReadyToInstall);
        Host (BuildState_SetUpdate "latest"%string)].
Proof. cbn. auto. Qed.

Example error_reaches_the_observer :
  new_effects watched_check
    (drain plain_host (ErrorCallback watched_check))
  = [Agent win_sparkle_check_update_with_ui;
     Notify 7 (OnWinSparkleStatusChanged kError);
     Notify 7 (OnWinSparkleError "Update check failed"%string)].
Proof. reflexivity. Qed.

Example CanShutdownCallback_answers :
  CanShutdownCallback plain_host = 1%Z
  /\ CanShutdownCallback (mkHostEnv None None false) = 0%Z.
Proof. split; reflexivity. Qed.

Example Cleanup_before_Initialize : Cleanup initial_state = initial_state.
Proof. reflexivity. Qed.

(** * Frame lemmas: what one event leaves alone *)

Section Frames.

Variable host : HostEnv.

Lemma step_keeps_update_ready s e :
  e <> EvCleanup ->
  g_update_ready s = true ->
  g_update_ready (step host s e) = true.
Proof.
  intros Hne Hready. destruct e; try congruence; glue_solve.
Qed.

Lemma step_keeps_initialized s e :
  e <> EvCleanup ->
  g_initialized s = true ->
  g_initialized (step host s e) = true.
Proof.
  intros Hne Hinit. destruct e; try congruence; glue_solve.
Qed.

Lemma step_keeps_last_error s e :
  e <> EvCleanup ->
  reports_error s e = false ->
  g_last_error (step host s e) = g_last_error s.
Proof.
  intros Hne Hrep. destruct e; try congruence; unfold reports_error in Hrep;
    glue_solve.
Qed.

Lemma step_clears_last_error s e :
  g_last_error s <> EmptyString ->
  g_last_error (step host s e) = EmptyString ->
  e = EvCleanup.
Proof.
  intros Hset Hclear. destruct e; trivial; exfalso; revert Hclear; glue;
    intros; subst; cbn in *; auto; try congruence.
Qed.

Lemma no_cleanup_cons e es :
  no_cleanup (e :: es) = true -> e <> EvCleanup /\ no_cleanup es = true.
Proof.
  unfold no_cleanup; cbn [forallb]. intros H.
  apply andb_true_iff in H as [He Hes]. split; trivial.
  intros ->. discriminate.
Qed.

Lemma run_keeps_initialized es : forall s,
  no_cleanup es = true ->
  g_initialized s = true ->
  g_initialized (run host es s) = true.
Proof.
  induction es as [|e es IH]; intros s Hes Hinit; trivial.
  apply no_cleanup_cons in Hes as [He Hes].
  apply (IH _ Hes). now apply step_keeps_initialized.
Qed.

Lemma run_keeps_update_ready es : forall s,
  no_cleanup es = true ->
  g_update_ready s = true ->
  g_update_ready (run host es s) = true.
Proof.
  induction es as [|e es IH]; intros s Hes Hready; trivial.
  apply no_cleanup_cons in Hes as [He Hes].
  apply (IH _ Hes). now apply step_keeps_update_ready.
Qed.

Lemma Initialize_sets_initialized s :
  g_initialized (Initialize host s) = true.
Proof. rewrite Initialize_closed. now destruct (g_initialized s) eqn:H. Qed.

Lemma Initialize_initialized s :
  g_initialized s = true -> Initialize host s = s.
Proof. intros H. unfold Initialize. now rewrite H. Qed.

Lemma Cleanup_uninitialized s :
  g_initialized s = false -> Cleanup s = s.
Proof. intros H. unfold Cleanup. now rewrite H. Qed.

Lemma Cleanup_initialized s :
  g_initialized s = true ->
  Cleanup s
  = mkState false kIdle false EmptyString EmptyString (observers s)
      (ui_tasks s) (delayed_tasks s) (trace s ++ [Agent win_sparkle_cleanup]).
Proof. intros H. now rewrite Cleanup_closed, H. Qed.

End Frames.

(** * The task queue: the UI thread empties it, in order *)

Section Queue.

Variable host : HostEnv.

Lemma run_task_globals t s :
  globals (run_task host t s) = task_globals (globals s) t.
Proof. unfold globals, task_globals. destruct t; glue_solve. Qed.

Lemma run_task_queue t s :
  ui_tasks (run_task host t s)
  = ui_tasks s ++ posted_by (g_initialized s) t.
Proof.
  unfold posted_by. destruct t; glue_solve; auto using app_nil_r.
Qed.

Lemma queue_weight_app a b :
  queue_weight (a ++ b) = queue_weight a + queue_weight b.
Proof.
  unfold queue_weight.
  induction a as [|t a IH]; cbn [app fold_right]; [trivial | rewrite IH; lia].
Qed.

Lemma posted_weight init t rest :
  S (queue_weight (rest ++ posted_by init t)) <= queue_weight (t :: rest).
Proof.
  rewrite queue_weight_app. unfold queue_weight.
  destruct t, init; cbn; lia.
Qed.

Lemma posted_globals init t g :
  fold_left task_globals (posted_by init t) g = g.
Proof.
  destruct g as [[[[i st] ready] ver] err]. destruct t, init; reflexivity.
Qed.

Lemma RunNextTask_cons t rest s :
  ui_tasks s = t :: rest ->
  RunNextTask host s = run_task host t (set_ui_tasks rest s).
Proof. intros H. unfold RunNextTask. now rewrite H. Qed.

Lemma RunNextTask_nil s : ui_tasks s = [] -> RunNextTask host s = s.
Proof. intros H. unfold RunNextTask. now rewrite H. Qed.

(** Enough turns empty the queue: [drain] is total and ends idle. *)
Lemma run_turns_empties n : forall s,
  queue_weight (ui_tasks s) <= n ->
  ui_tasks (run_turns host n s) = [].
Proof.
  induction n as [|n IH]; intros s Hw; cbn [run_turns].
  - destruct (ui_tasks s) as [|t rest]; trivial.
    unfold queue_weight in Hw. destruct t; cbn in Hw; lia.
  - apply IH. destruct (ui_tasks s) as [|t rest] eqn:Hq.
    + rewrite RunNextTask_nil, Hq by trivial. cbn. lia.
    + rewrite (RunNextTask_cons t rest) by trivial.
      rewrite run_task_queue. cbn [ui_tasks set_ui_tasks].
      pose proof (posted_weight (g_initialized (set_ui_tasks rest s)) t rest).
      lia.
Qed.

Lemma drain_empties s : ui_tasks (drain host s) = [].
Proof. apply run_turns_empties. unfold queue_weight. lia. Qed.

(** The globals after the turns are the tasks' effects, folded in queue
    order. *)
Lemma run_turns_globals n : forall s,
  queue_weight (ui_tasks s) <= n ->
  globals (run_turns host n s)
  = fold_left task_globals (ui_tasks s) (globals s).
Proof.
  induction n as [|n IH]; intros s Hw; cbn [run_turns].
  - destruct (ui_tasks s) as [|t rest]; trivial.
    unfold queue_weight in Hw. destruct t; cbn in Hw; lia.
  - destruct (ui_tasks s) as [|t rest] eqn:Hq.
    + rewrite RunNextTask_nil by trivial. rewrite IH, Hq; trivial.
      rewrite Hq. cbn. lia.
    + rewrite (RunNextTask_cons t rest) by trivial.
      pose proof (posted_weight (g_initialized (set_ui_tasks rest s)) t rest)
        as Hpw.
      rewrite IH; rewrite run_task_queue; cbn [ui_tasks set_ui_tasks];
        [|lia].
      rewrite fold_left_app, posted_globals, run_task_globals.
      reflexivity.
Qed.

Lemma drain_globals s :
  globals (drain host s) = fold_left task_globals (ui_tasks s) (globals s).
Proof. apply run_turns_globals. unfold queue_weight. lia. Qed.

Lemma drain_PostTask t s :
  globals (drain host (PostTask t s))
  = task_globals (globals (drain host s)) t.
Proof.
  rewrite !drain_globals. unfold PostTask; cbn [ui_tasks set_ui_tasks].
  now rewrite fold_left_app.
Qed.

Lemma drain_RunNextTask s :
  globals (drain host (RunNextTask host s)) = globals (drain host s).
Proof.
  destruct (ui_tasks s) as [|t rest] eqn:Hq.
  - now rewrite RunNextTask_nil.
  - rewrite (RunNextTask_cons t rest) by trivial.
    rewrite !drain_globals, run_task_queue, run_task_globals, Hq.
    cbn [ui_tasks set_ui_tasks fold_left].
    now rewrite fold_left_app, posted_globals.
Qed.

Lemma invoke_posts cb s :
  invoke cb s = match task_of cb with
                | Some t => PostTask t s
                | None => s
                end.
Proof. destruct cb; reflexivity. Qed.

Lemma globals_status s s' : globals s = globals s' -> g_status s = g_status s'.
Proof. unfold globals. congruence. Qed.

Lemma drain_invoke_status cb s :
  g_status (drain host (invoke cb s))
  = transition (g_status (drain host s)) cb.
Proof.
  rewrite invoke_posts.
  destruct cb; cbn [task_of transition]; trivial;
    match goal with
    | |- context [PostTask ?t s] =>
        pose proof (drain_PostTask t s) as H; unfold globals in H;
          cbn [task_globals empty] in H
    end;
    congruence.
Qed.

End Queue.

(** * The trace only grows *)

Section Trace.

Variable host : HostEnv.

Lemma new_effects_app s s' added :
  trace s' = trace s ++ added -> new_effects s s' = added.
Proof.
  unfold new_effects. intros ->.
  induction (trace s) as [|e tr IH]; cbn; trivial.
Qed.

Lemma run_task_trace t s :
  exists added, trace (run_task host t s) = trace s ++ added.
Proof.
  destruct t; glue; eauto using app_nil_r;
    try (eexists; symmetry; apply app_nil_r).
Qed.

Lemma RunNextTask_trace s :
  exists added, trace (RunNextTask host s) = trace s ++ added.
Proof.
  unfold RunNextTask. destruct (ui_tasks s) as [|t rest].
  - exists []. now rewrite app_nil_r.
  - apply (run_task_trace t (set_ui_tasks rest s)).
Qed.

Lemma run_turns_trace n : forall s,
  exists added, trace (run_turns host n s) = trace s ++ added.
Proof.
  induction n as [|n IH]; intros s; cbn [run_turns].
  - exists []. now rewrite app_nil_r.
  - destruct (RunNextTask_trace s) as [a Ha].
    destruct (IH (RunNextTask host s)) as [b Hb].
    exists (a ++ b). now rewrite Hb, Ha, app_assoc.
Qed.

Lemma RunNextTask_initialized s :
  g_initialized (RunNextTask host s) = g_initialized s.
Proof.
  unfold RunNextTask. destruct (ui_tasks s) as [|t rest]; trivial.
  destruct t; glue_solve.
Qed.

Lemma run_turns_add a : forall b s,
  run_turns host (a + b) s = run_turns host b (run_turns host a s).
Proof. induction a as [|a IH]; intros b s; cbn; trivial. Qed.

Lemma length_le_weight q : List.length q <= queue_weight q.
Proof.
  unfold queue_weight.
  induction q as [|t q IH]; cbn [List.length fold_right]; trivial.
  destruct t; cbn [task_weight]; lia.
Qed.

(** The UI thread reaches every queued task: after as many turns as there
    are tasks ahead of it, the task is at the head of the queue. *)
Lemma run_turns_reaches t q : forall s q',
  ui_tasks s = q ++ t :: q' ->
  exists mid q'',
    trace (run_turns host (List.length q) s) = trace s ++ mid
    /\ ui_tasks (run_turns host (List.length q) s) = t :: q''
    /\ g_initialized (run_turns host (List.length q) s) = g_initialized s.
Proof.
  induction q as [|t0 q IH]; intros s q' Hq; cbn [List.length run_turns].
  - exists [], q'. rewrite app_nil_r. auto.
  - destruct (RunNextTask_trace s) as [a Ha].
    destruct (IH (RunNextTask host s)
                (q' ++ posted_by (g_initialized s) t0)) as (mid & q'' & H1 & H2 & H3).
    + rewrite (RunNextTask_cons host t0 (q ++ t :: q')) by exact Hq.
      rewrite run_task_queue. cbn [ui_tasks set_ui_tasks g_initialized].
      now rewrite <- app_assoc.
    + exists (a ++ mid), q''. rewrite H1, H2, H3, Ha, app_assoc.
      auto using RunNextTask_initialized.
Qed.

(** A queued check of the agent is made once the queue is processed, and
    after everything the trace held when it was queued. *)
Lemma drain_reaches_check s q q' :
  ui_tasks s = q ++ CheckUpdateWithUITask :: q' ->
  g_initialized s = true ->
  exists mid post,
    trace (drain host s)
    = trace s ++ mid ++ Agent win_sparkle_check_update_with_ui :: post.
Proof.
  intros Hq Hinit.
  destruct (run_turns_reaches CheckUpdateWithUITask q s q' Hq)
    as (mid & q'' & H1 & H2 & H3).
  pose proof (length_le_weight (ui_tasks s)) as Hlen.
  rewrite Hq, length_app in Hlen. cbn [List.length] in Hlen.
  unfold drain. rewrite Hq.
  replace (queue_weight (q ++ CheckUpdateWithUITask :: q'))
    with (List.length q
          + S (queue_weight (q ++ CheckUpdateWithUITask :: q')
               - List.length q - 1)) by lia.
  rewrite run_turns_add. cbn [run_turns].
  set (s1 := run_turns host (List.length q) s) in *.
  destruct (run_turns_trace
              (queue_weight (q ++ CheckUpdateWithUITask :: q')
               - List.length q - 1) (RunNextTask host s1)) as [post Hpost].
  exists mid, post. rewrite Hpost.
  rewrite (RunNextTask_cons host CheckUpdateWithUITask q'') by exact H2.
  cbn [run_task g_initialized set_ui_tasks]. rewrite H3, Hinit.
  cbn [trace emit set_ui_tasks]. rewrite H1.
  now rewrite <- !app_assoc.
Qed.

End Trace.

(** * The status state machine *)

Lemma transition_never_downloads cbs : forall st,
  fold_left transition cbs st = kDownloading -> st = kDownloading.
Proof.
  induction cbs as [|cb cbs IH]; intros st H; trivial.
  cbn [fold_left] in H. apply IH in H. destruct cb; cbn in H; congruence.
Qed.

(** C1, as the specification states it, fails on the code: after
    [Initialize] the agent reports a download at 55 percent.  No callback
    was registered for that event, so nothing is posted and the status
    stays [kIdle], where the table of section 4.2 has [kDownloading]. *)
Lemma progress_report_is_dropped :
  GetStatus
    (drain plain_host
       (fold_left deliver [OnDownloadProgress 55]
          (Initialize plain_host initial_state)))
  <> fold_left table_4_2 [OnDownloadProgress 55] kIdle.
Proof. vm_compute. discriminate. Qed.

(** C1, amended.  For every schedule in which the agent enters native
    callbacks while the UI thread takes turns, from any state, the status
    once the queue is processed is the table of the code applied to the
    callbacks in arrival order: update found gives [kUpdateAvailable], no
    update found [kUpToDate], cancelled [kIdle], error [kError], the
    download-complete entry point [kReadyToInstall]; the two shutdown
    callbacks leave it alone.  Each callback posts one task, and the turn
    that runs it makes that one transition.  No callback makes the status
    [kDownloading]. *)
Theorem status_follows_callbacks host es s :
  forallb callback_or_turn es = true ->
  GetStatus (drain host (run host es s))
  = fold_left transition (callbacks_of es) (GetStatus (drain host s))
  /\ (forall cb t s0,
        task_of cb = Some t ->
        invoke cb s0 = PostTask t s0
        /\ GetStatus (run_task host t s0) = transition (GetStatus s0) cb)
  /\ (GetStatus (drain host s) <> kDownloading ->
      GetStatus (drain host (run host es s)) <> kDownloading).
Proof.
  intros Hes.
  assert (Heq : GetStatus (drain host (run host es s))
                = fold_left transition (callbacks_of es)
                    (GetStatus (drain host s))).
  { revert s. induction es as [|e es IH]; intros s; trivial.
    cbn [forallb] in Hes. apply andb_true_iff in Hes as [He Hes].
    unfold run in *. cbn [fold_left callbacks_of flat_map].
    rewrite fold_left_app, (IH Hes). f_equal.
    destruct e; try discriminate; cbn [step fold_left]; unfold GetStatus.
    - apply drain_invoke_status.
    - apply globals_status, drain_RunNextTask. }
  split; trivial. split.
  - intros cb t s0 Ht. rewrite invoke_posts, Ht. split; trivial.
    destruct cb; cbn in Ht; inversion Ht; subst; glue_solve.
  - intros Hnot Hdown. rewrite Heq in Hdown.
    now apply transition_never_downloads in Hdown.
Qed.

Lemma status_follows_callbacks_witness :
  forallb callback_or_turn found_failed_cancelled = true
  /\ GetStatus
       (drain plain_host
          (run plain_host found_failed_cancelled
             (Initialize plain_host initial_state)))
     = kIdle.
Proof.
  split; [reflexivity|].
  now rewrite (proj1 (status_follows_callbacks plain_host
                        found_failed_cancelled
                        (Initialize plain_host initial_state) eq_refl)).
Defined.

(** * CheckForUpdates *)

(** C2, as the specification states it, fails on the code: a controller
    with one observer is already [kChecking]; a second [CheckForUpdates]
    sends that observer one more [kChecking] notification. *)
Lemma second_check_notifies_again :
  IsEnabled watched_check = true
  /\ GetStatus watched_check = kChecking
  /\ new_effects watched_check (CheckForUpdates watched_check)
     = [Notify 7 (OnWinSparkleStatusChanged kChecking)]
  /\ new_effects watched_check (CheckForUpdates watched_check) <> [].
Proof. vm_compute. repeat split. discriminate. Qed.

(** C2, amended.  [CheckForUpdates] does not look at the current status:
    called on an initialised controller whose status is already
    [kChecking], it sets [kChecking] again, sends every registered
    observer one more [kChecking] notification and posts one more check of
    the agent. *)
Theorem CheckForUpdates_while_checking s :
  IsEnabled s = true ->
  GetStatus s = kChecking ->
  GetStatus (CheckForUpdates s) = kChecking
  /\ new_effects s (CheckForUpdates s) = checking_notifications (observers s)
  /\ ui_tasks (CheckForUpdates s) = ui_tasks s ++ [CheckUpdateWithUITask].
Proof.
  unfold IsEnabled, GetStatus. intros Hinit _.
  rewrite CheckForUpdates_unfold, Hinit. cbn.
  repeat split. now apply new_effects_app.
Qed.

Lemma CheckForUpdates_while_checking_witness :
  IsEnabled watched_check = true
  /\ GetStatus watched_check = kChecking
  /\ new_effects watched_check (CheckForUpdates watched_check)
     = checking_notifications [7].
Proof.
  split; [reflexivity|]. split; [reflexivity|].
  apply (CheckForUpdates_while_checking watched_check); reflexivity.
Defined.

(** C7.  [CheckForUpdates] on an initialised controller sets the status to
    [kChecking] and, within the call, sends the [kChecking] notification
    to every registered observer and calls nothing else; the check of the
    agent is posted as a task behind the queue, and when the UI thread
    processes the queue the agent's entry point is called, after those
    notifications. *)
Theorem CheckForUpdates_notifies_then_defers host s :
  IsEnabled s = true ->
  GetStatus (CheckForUpdates s) = kChecking
  /\ new_effects s (CheckForUpdates s) = checking_notifications (observers s)
  /\ ui_tasks (CheckForUpdates s) = ui_tasks s ++ [CheckUpdateWithUITask]
  /\ exists mid post,
       trace (drain host (CheckForUpdates s))
       = trace s ++ checking_notifications (observers s) ++ mid
         ++ Agent win_sparkle_check_update_with_ui :: post.
Proof.
  unfold IsEnabled, GetStatus. intros Hinit.
  pose proof (CheckForUpdates_unfold s) as Hc. rewrite Hinit in Hc.
  split; [now rewrite Hc|].
  split; [apply new_effects_app; now rewrite Hc|].
  split; [now rewrite Hc|].
  destruct (drain_reaches_check host (CheckForUpdates s) (ui_tasks s) [])
    as (mid & post & Hd).
  - now rewrite Hc.
  - now rewrite Hc.
  - exists mid, post. rewrite Hd, Hc. cbn [trace].
    now rewrite <- !app_assoc.
Qed.

Lemma CheckForUpdates_notifies_then_defers_witness :
  IsEnabled (AddObserver 7 (Initialize plain_host initial_state)) = true
  /\ new_effects (AddObserver 7 (Initialize plain_host initial_state))
       watched_check
     = [Notify 7 (OnWinSparkleStatusChanged kChecking)].
Proof.
  split; [reflexivity|].
  apply (CheckForUpdates_notifies_then_defers plain_host
           (AddObserver 7 (Initialize plain_host initial_state)));
    reflexivity.
Defined.

(** * Errors *)

Lemma run_turns_initialized host n : forall s,
  g_initialized (run_turns host n s) = g_initialized s.
Proof.
  induction n as [|n IH]; intros s; cbn [run_turns]; trivial.
  now rewrite IH, RunNextTask_initialized.
Qed.

(** C3, as the specification states it, fails on the code: the agent
    reports "network down" to an initialised controller.  The registered
    [ErrorCallback] takes no argument; the error recorded is the fixed
    text of the code, not the agent's message. *)
Lemma agent_message_is_dropped :
  let failed :=
    drain plain_host
      (deliver (Initialize plain_host initial_state)
         (OnError "network down"%string)) in
  GetStatus failed = kError
  /\ g_last_error failed = "Update check failed"%string
  /\ g_last_error failed <> "network down"%string.
Proof. vm_compute. repeat split. discriminate. Qed.

(** C3, amended.  When the agent reports an error through the registered
    error callback, whatever its message, then once the report is
    processed the status is [kError] and the last error is the fixed text
    "Update check failed"; a following [CheckForUpdates] on the initialised
    controller sets the status back to [kChecking]. *)
Theorem error_report_then_recovery host s message :
  IsEnabled s = true ->
  registered_callback (OnError message) (trace s) = Some cb_Error ->
  GetStatus (drain host (deliver s (OnError message))) = kError
  /\ g_last_error (drain host (deliver s (OnError message)))
     = "Update check failed"%string
  /\ GetStatus (CheckForUpdates (drain host (deliver s (OnError message))))
     = kChecking.
Proof.
  unfold IsEnabled, GetStatus, deliver. intros Hinit ->. cbn [invoke].
  unfold ErrorCallback, PostStatusChange.
  set (failed := drain host (PostTask _ s)).
  pose proof (drain_PostTask host
                (SetStatusTask kError "Update check failed"%string) s) as Hg.
  fold failed in Hg. unfold globals in Hg. cbn in Hg.
  assert (Hi : g_initialized failed = true).
  { unfold failed, drain. now rewrite run_turns_initialized. }
  rewrite CheckForUpdates_unfold, Hi. cbn.
  repeat split; congruence.
Qed.

Lemma error_report_then_recovery_witness :
  IsEnabled (Initialize plain_host initial_state) = true
  /\ registered_callback (OnError "network down"%string)
       (trace (Initialize plain_host initial_state)) = Some cb_Error
  /\ g_last_error
       (drain plain_host
          (deliver (Initialize plain_host initial_state)
             (OnError "network down"%string)))
     = "Update check failed"%string.
Proof.
  split; [reflexivity|]. split; [reflexivity|].
  apply (error_report_then_recovery plain_host
           (Initialize plain_host initial_state) "network down"%string);
    reflexivity.
Defined.

(** C8.  Once an error text is recorded, every step other than [Cleanup]
    and the processing of another error report leaves it as it is: so do
    [CheckForUpdates] ([kChecking]), a status change without a message
    ([kUpToDate], [kUpdateAvailable], [kIdle] on cancellation) and the
    download-complete handler ([kReadyToInstall]); the only step after
    which it is empty is [Cleanup]. *)
Theorem last_error_is_sticky host s e :
  empty (g_last_error s) = false ->
  (e <> EvCleanup -> reports_error s e = false ->
   g_last_error (step host s e) = g_last_error s)
  /\ g_last_error (CheckForUpdates s) = g_last_error s
  /\ (forall status,
        g_last_error (SetStatusOnUIThread status EmptyString s)
        = g_last_error s)
  /\ (forall version,
        g_last_error (HandleUpdateReadyOnUIThread host version s)
        = g_last_error s)
  /\ (g_last_error (step host s e) = EmptyString -> e = EvCleanup).
Proof.
  intros Hrec.
  split; [apply step_keeps_last_error|].
  split; [glue_solve|].
  split; [intros; glue_solve|].
  split; [intros; glue_solve|].
  apply step_clears_last_error. intros Heq. now rewrite Heq in Hrec.
Qed.

Lemma last_error_is_sticky_witness :
  empty (g_last_error
           (drain plain_host
              (ErrorCallback (Initialize plain_host initial_state)))) = false
  /\ g_last_error
       (CheckForUpdates
          (drain plain_host
             (ErrorCallback (Initialize plain_host initial_state))))
     = "Update check failed"%string.
Proof.
  split; [reflexivity|].
  rewrite (proj1 (proj2 (last_error_is_sticky plain_host
                           (drain plain_host
                              (ErrorCallback
                                 (Initialize plain_host initial_state)))
                           EvCheckForUpdates eq_refl))).
  reflexivity.
Defined.

(** * The downloaded update *)

(** C4, as the specification states it, fails on the code: the download
    completes while there is no browser process.  [NotifyUpgradeReady]
    returns at its first null check and the indicator is not notified. *)
Lemma no_browser_process_no_indicator :
  let ready :=
    drain headless_host
      (UpdateDownloadedCallback (Initialize headless_host initial_state)) in
  GetStatus ready = kReadyToInstall
  /\ indicator_notifications (trace ready) = 0
  /\ indicator_notifications (trace ready) <> 1.
Proof. vm_compute. repeat split. discriminate. Qed.

(** C4, amended.  The download-complete entry point posts the handler with
    the version "latest".  Whenever the UI thread runs it, the status
    becomes [kReadyToInstall], the pending version is set and not empty,
    and the update indicator of the host is notified exactly once if the
    browser process and its build state are there, and not at all
    otherwise. *)
Theorem download_complete_is_ready host s :
  UpdateDownloadedCallback s
  = PostTask (HandleUpdateReadyTask "latest"%string) s
  /\ GetStatus (run_task host (HandleUpdateReadyTask "latest"%string) s)
     = kReadyToInstall
  /\ g_pending_version (run_task host (HandleUpdateReadyTask "latest"%string) s)
     = "latest"%string
  /\ empty (g_pending_version
              (run_task host (HandleUpdateReadyTask "latest"%string) s))
     = false
  /\ indicator_notifications
       (trace (run_task host (HandleUpdateReadyTask "latest"%string) s))
     = indicator_notifications (trace s)
       + (if build_state_available host then 1 else 0).
Proof.
  split; [reflexivity|].
  unfold indicator_notifications, GetStatus.
  assert (Hn : forall st msg obs,
             filter is_indicator_call (status_notifications st msg obs) = []).
  { intros st msg obs. induction obs as [|o obs IH]; trivial.
    unfold status_notifications, calls_to in *. cbn [flat_map].
    rewrite filter_app, IH. now destruct (negb (empty msg)). }
  cbn [run_task]. rewrite HandleUpdateReadyOnUIThread_closed.
  cbn [g_status g_pending_version trace empty].
  rewrite !filter_app, Hn, !length_app.
  destruct (build_state_available host); cbn; repeat split; lia.
Qed.

(** C9.  The download-complete handler makes [IsUpdateReady] true; it stays
    true along every run without [Cleanup], whatever callbacks the agent
    enters (cancellation, error and no update among them) and however
    often [CheckForUpdates] is called; a step after which it is false can
    only be [Cleanup]. *)
Theorem IsUpdateReady_is_monotone host version s es :
  no_cleanup es = true ->
  IsUpdateReady (HandleUpdateReadyOnUIThread host version s) = true
  /\ IsUpdateReady (run host es (HandleUpdateReadyOnUIThread host version s))
     = true
  /\ (forall e,
        IsUpdateReady
          (step host
             (run host es (HandleUpdateReadyOnUIThread host version s)) e)
        = false ->
        e = EvCleanup).
Proof.
  unfold IsUpdateReady. intros Hes.
  assert (H0 : g_update_ready (HandleUpdateReadyOnUIThread host version s)
               = true) by (glue; auto).
  pose proof (run_keeps_update_ready host es _ Hes H0) as H1.
  repeat split; trivial.
  intros e He. destruct e; trivial;
    rewrite step_keeps_update_ready in He by (trivial; discriminate);
    discriminate.
Qed.

Lemma IsUpdateReady_is_monotone_witness :
  no_cleanup later_events = true
  /\ IsUpdateReady
       (run plain_host later_events
          (HandleUpdateReadyOnUIThread plain_host "latest"%string
             (Initialize plain_host initial_state)))
     = true.
Proof.
  split; [reflexivity|].
  apply (IsUpdateReady_is_monotone plain_host "latest"%string
           (Initialize plain_host initial_state) later_events).
  reflexivity.
Defined.

(** * Initialize and Cleanup *)

Section Lifecycle.

Variable host : HostEnv.

Lemma registrations_status_notifications status error_message obs :
  registrations (status_notifications status error_message obs) = [].
Proof.
  unfold registrations, status_notifications, calls_to.
  induction obs as [|o obs IH]; trivial. cbn [flat_map].
  rewrite filter_app, IH. now destruct (negb (empty error_message)).
Qed.

Lemma registrations_checking_notifications obs :
  registrations (checking_notifications obs) = [].
Proof.
  unfold registrations, checking_notifications.
  induction obs as [|o obs IH]; trivial.
Qed.

Lemma registrations_app a b :
  registrations (a ++ b) = registrations a ++ registrations b.
Proof. apply filter_app. Qed.

Lemma step_keeps_registrations s e :
  g_initialized s = true ->
  registrations (trace (step host s e)) = registrations (trace s).
Proof.
  intros Hinit. destruct e; glue;
    rewrite ?registrations_app, ?registrations_status_notifications,
      ?registrations_checking_notifications;
    try destruct (build_state_available host);
    cbn; rewrite ?app_nil_r; trivial; congruence.
Qed.

Lemma run_keeps_registrations es : forall s,
  no_cleanup es = true ->
  g_initialized s = true ->
  registrations (trace (run host es s)) = registrations (trace s).
Proof.
  induction es as [|e es IH]; intros s Hes Hinit; trivial.
  apply no_cleanup_cons in Hes as [He Hes].
  unfold run in *. cbn [fold_left].
  rewrite IH; auto using step_keeps_initialized, step_keeps_registrations.
Qed.

Lemma Initialize_registrations s :
  registrations (trace (Initialize host s))
  = registrations (trace s)
    ++ (if g_initialized s then [] else the_six_registrations).
Proof.
  rewrite Initialize_closed. destruct (g_initialized s).
  - now rewrite app_nil_r.
  - cbn [trace]. now rewrite registrations_app.
Qed.

Lemma step_keeps_fresh s e :
  fresh s ->
  match e with
  | EvInitialize | EvCallback _ => False
  | _ => True
  end ->
  fresh (step host s e).
Proof.
  unfold fresh, globals. intros (Hg & Hq & Hd) He.
  injection Hg as Hi Hs Hr Hv Hl.
  destruct e; try contradiction; cbn [step];
    rewrite ?CheckForUpdates_unfold, ?Cleanup_closed; unfold RunNextTask,
      DelayElapsed, AddObserver, RemoveObserver;
    rewrite ?Hi, ?Hq, ?Hd; try destruct (existsb _ _); cbn;
    repeat split; congruence.
Qed.

(** Along a run in which the agent enters no callback before the first
    [Initialize], the controller is initialised or still fresh. *)
Lemma run_initialized_or_fresh es : forall started s,
  no_cleanup es = true ->
  callbacks_follow_Initialize started es = true ->
  (if started then g_initialized s = true else fresh s) ->
  g_initialized (run host es s) = true \/ fresh (run host es s).
Proof.
  induction es as [|e es IH]; intros started s Hes Hcb Hs.
  - destruct started; auto.
  - apply no_cleanup_cons in Hes as [He Hes].
    unfold run in *. cbn [fold_left].
    destruct started.
    + apply (IH true); trivial.
      * destruct e; cbn in Hcb; trivial.
      * now apply step_keeps_initialized.
    + destruct e; cbn [callbacks_follow_Initialize andb] in Hcb;
        try discriminate; try congruence;
        try (apply (IH false); trivial; now apply step_keeps_fresh).
      apply (IH true); trivial. apply Initialize_sets_initialized.
Qed.

End Lifecycle.

(** C5.  [Initialize] on an initialised controller changes nothing: after
    [Initialize] and any run without [Cleanup], another [Initialize]
    returns the state as it is, and the trace holds the registrations it
    held before the first call followed, if the controller was not yet
    initialised, by the six registrations of the native callbacks, once
    each. *)
Theorem Initialize_is_idempotent host es s :
  no_cleanup es = true ->
  Initialize host (run host es (Initialize host s))
  = run host es (Initialize host s)
  /\ registrations
       (trace (Initialize host (run host es (Initialize host s))))
     = registrations (trace s)
       ++ (if g_initialized s then [] else the_six_registrations).
Proof.
  intros Hes.
  assert (Hinit : g_initialized (run host es (Initialize host s)) = true)
    by auto using run_keeps_initialized, Initialize_sets_initialized.
  rewrite (Initialize_initialized host _ Hinit). split; trivial.
  rewrite run_keeps_registrations
    by auto using Initialize_sets_initialized.
  apply Initialize_registrations.
Qed.

Lemma Initialize_is_idempotent_witness :
  no_cleanup later_events = true
  /\ registrations
       (trace
          (Initialize testing_host
             (run testing_host later_events
                (Initialize testing_host initial_state))))
     = the_six_registrations.
Proof.
  split; [reflexivity|].
  apply (Initialize_is_idempotent testing_host later_events initial_state).
  reflexivity.
Defined.

(** C6.  From the start of the process, after any run of [Initialize],
    callbacks, [CheckForUpdates], observer changes and UI-thread turns
    (the agent entering callbacks only once [Initialize] has registered
    them), [Cleanup] leaves [GetStatus] at [kIdle], [IsUpdateReady] false,
    the pending version and the last error empty and the controller not
    enabled; on a controller that is not initialised [Cleanup] returns the
    state unchanged. *)
Theorem Cleanup_resets host es :
  no_cleanup es = true ->
  callbacks_follow_Initialize false es = true ->
  GetStatus (Cleanup (run host es initial_state)) = kIdle
  /\ IsUpdateReady (Cleanup (run host es initial_state)) = false
  /\ g_pending_version (Cleanup (run host es initial_state)) = EmptyString
  /\ g_last_error (Cleanup (run host es initial_state)) = EmptyString
  /\ IsEnabled (Cleanup (run host es initial_state)) = false
  /\ (forall s, IsEnabled s = false -> Cleanup s = s).
Proof.
  intros Hes Hcb. unfold GetStatus, IsUpdateReady, IsEnabled.
  destruct (run_initialized_or_fresh host es false initial_state Hes Hcb)
    as [Hinit | (Hg & _)].
  - repeat split; trivial.
  - rewrite (Cleanup_initialized _ Hinit). cbn.
    repeat split; trivial. apply Cleanup_uninitialized.
  - unfold globals in Hg. injection Hg as Hi Hs Hr Hv Hl.
    rewrite (Cleanup_uninitialized _ Hi).
    repeat split; trivial. apply Cleanup_uninitialized.
Qed.

Lemma Cleanup_resets_witness :
  no_cleanup busy_session = true
  /\ callbacks_follow_Initialize false busy_session = true
  /\ IsUpdateReady (run plain_host busy_session initial_state) = true
  /\ IsUpdateReady (Cleanup (run plain_host busy_session initial_state))
     = false.
Proof.
  split; [reflexivity|]. split; [reflexivity|]. split; [reflexivity|].
  apply (Cleanup_resets plain_host busy_session); reflexivity.
Defined.

(** * The placeholder version *)

Section Placeholder.

Variable host : HostEnv.

Lemma status_notifications_latest status error_message obs :
  Forall effect_latest (status_notifications status error_message obs).
Proof.
  unfold status_notifications, calls_to.
  induction obs as [|o obs IH]; cbn [flat_map]; [constructor|].
  apply Forall_app. split; trivial.
  destruct (negb (empty error_message)); repeat constructor.
Qed.

Lemma checking_notifications_latest obs :
  Forall effect_latest (checking_notifications obs).
Proof.
  unfold checking_notifications.
  induction obs as [|o obs IH]; cbn [map]; constructor; trivial.
  exact I.
Qed.

Lemma Initialize_calls_latest : Forall effect_latest (Initialize_calls host).
Proof. unfold Initialize_calls. repeat constructor. Qed.

Lemma initial_state_latest : latest_invariant initial_state.
Proof.
  unfold latest_invariant. cbn. repeat split; try constructor. discriminate.
Qed.

Lemma invoke_latest cb s :
  latest_invariant s -> latest_invariant (invoke cb s).
Proof.
  unfold latest_invariant. intros (Hs & Hq & Hd & Ht).
  rewrite invoke_posts.
  destruct cb; cbn [task_of]; unfold PostTask;
    cbn [g_status g_pending_version ui_tasks delayed_tasks trace
         set_ui_tasks];
    repeat split; trivial;
    apply Forall_app; split; trivial; repeat constructor; discriminate.
Qed.

Lemma CheckForUpdates_latest s :
  latest_invariant s -> latest_invariant (CheckForUpdates s).
Proof.
  unfold latest_invariant. intros (Hs & Hq & Hd & Ht).
  rewrite CheckForUpdates_unfold. destruct (g_initialized s); auto.
  cbn [g_status g_pending_version ui_tasks delayed_tasks trace].
  repeat split; trivial.
  - discriminate.
  - apply Forall_app. split; trivial. repeat constructor.
  - apply Forall_app. auto using checking_notifications_latest.
Qed.

Lemma run_task_latest t s :
  task_latest t -> latest_invariant s -> latest_invariant (run_task host t s).
Proof.
  intros Hl Hinv. destruct t; cbn [run_task]; cbn [task_latest] in Hl.
  - destruct Hinv as (Hs & Hq & Hd & Ht). unfold latest_invariant.
    rewrite SetStatusOnUIThread_closed.
    cbn [g_status g_pending_version ui_tasks delayed_tasks trace].
    repeat split; trivial; [congruence|].
    apply Forall_app. auto using status_notifications_latest.
  - destruct Hinv as (Hs & Hq & Hd & Ht). unfold latest_invariant.
    rewrite HandleUpdateReadyOnUIThread_closed.
    cbn [g_status g_pending_version ui_tasks delayed_tasks trace].
    repeat split; trivial.
    apply Forall_app. split; trivial.
    apply Forall_app. split; [apply status_notifications_latest|].
    destruct (build_state_available host); repeat constructor; trivial.
  - destruct (g_initialized s); trivial.
    destruct Hinv as (Hs & Hq & Hd & Ht). unfold latest_invariant, emit.
    cbn [g_status g_pending_version ui_tasks delayed_tasks trace].
    repeat split; trivial.
    apply Forall_app. split; trivial. repeat constructor.
  - destruct Hinv as (Hs & Hq & Hd & Ht). unfold latest_invariant, emit.
    cbn [g_status g_pending_version ui_tasks delayed_tasks trace].
    repeat split; trivial.
    apply Forall_app. split; trivial. repeat constructor.
  - now apply CheckForUpdates_latest.
Qed.

Lemma step_latest s e :
  latest_invariant s -> latest_invariant (step host s e).
Proof.
  intros Hinv. destruct e; cbn [step].
  - destruct Hinv as (Hs & Hq & Hd & Ht). unfold latest_invariant.
    rewrite Initialize_closed. destruct (g_initialized s); auto.
    cbn [g_status g_pending_version ui_tasks delayed_tasks trace].
    repeat split; trivial; try discriminate.
    + apply Forall_app. split; trivial.
      destruct (force_check host); repeat constructor.
    + apply Forall_app. auto using Initialize_calls_latest.
  - destruct Hinv as (Hs & Hq & Hd & Ht). unfold latest_invariant.
    rewrite Cleanup_closed. destruct (g_initialized s); auto.
    cbn [g_status g_pending_version ui_tasks delayed_tasks trace].
    repeat split; trivial; try discriminate.
    apply Forall_app. split; trivial. repeat constructor.
  - now apply CheckForUpdates_latest.
  - unfold AddObserver. now destruct (existsb _ _).
  - exact Hinv.
  - now apply invoke_latest.
  - unfold RunNextTask. destruct (ui_tasks s) as [|t rest] eqn:Hq; trivial.
    destruct Hinv as (Hs & Hrest & Hd & Ht). rewrite Hq in Hrest.
    inversion Hrest as [|? ? Hhead Htail]; subst.
    apply run_task_latest; trivial.
    unfold latest_invariant; cbn; auto.
  - unfold DelayElapsed.
    destruct (delayed_tasks s) as [|[delay t] rest] eqn:Hdq; trivial.
    destruct Hinv as (Hs & Hq & Hd & Ht). rewrite Hdq in Hd.
    inversion Hd as [|? ? Hhead Htail]; subst.
    unfold latest_invariant, PostTask; cbn.
    repeat split; trivial. apply Forall_app. auto.
Qed.

Lemma run_latest es : forall s,
  latest_invariant s -> latest_invariant (run host es s).
Proof.
  induction es as [|e es IH]; intros s Hinv; trivial.
  apply IH. now apply step_latest.
Qed.

End Placeholder.

(** C10.  In every state the process can reach, a status of
    [kReadyToInstall] comes with the pending version "latest"; every
    handler task the download-complete callback has queued and every call
    made to the update indicator of the host carries that same
    placeholder. *)
Theorem pending_version_is_latest host es :
  GetStatus (run host es initial_state) = kReadyToInstall ->
  g_pending_version (run host es initial_state) = "latest"%string
  /\ (forall version,
        In (HandleUpdateReadyTask version)
          (ui_tasks (run host es initial_state)) ->
        version = "latest"%string)
  /\ (forall version,
        In (Host (BuildState_SetUpdate version))
          (trace (run host es initial_state)) ->
        version = "latest"%string).
Proof.
  unfold GetStatus. intros Hready.
  destruct (run_latest host es _ initial_state_latest) as (Hs & Hq & _ & Ht).
  split; [auto|]. split; intros version Hin.
  - rewrite Forall_forall in Hq. exact (Hq _ Hin).
  - rewrite Forall_forall in Ht. exact (Ht _ Hin).
Qed.

Lemma pending_version_is_latest_witness :
  GetStatus
    (run plain_host [EvInitialize; EvCallback cb_UpdateDownloaded; EvRunTask]
       initial_state) = kReadyToInstall
  /\ g_pending_version
       (run plain_host
          [EvInitialize; EvCallback cb_UpdateDownloaded; EvRunTask]
          initial_state) = "latest"%string.
Proof.
  split; [reflexivity|].
  exact (proj1 (pending_version_is_latest plain_host
                  [EvInitialize; EvCallback cb_UpdateDownloaded; EvRunTask]
                  eq_refl)).
Defined.

(** * Further properties of the glue *)

Section Reachable.

Variable host : HostEnv.

(** Induction over the runs from a state. *)
Lemma run_invariant (P : State -> Prop) :
  (forall s e, P s -> P (step host s e)) ->
  forall es s, P s -> P (run host es s).
Proof.
  intros Hstep. induction es as [|e es IH]; intros s Hs; trivial.
  apply IH, Hstep, Hs.
Qed.

Lemma step_trace s e :
  exists added, trace (step host s e) = trace s ++ added.
Proof.
  destruct e; cbn [step].
  - rewrite Initialize_closed. destruct (g_initialized s); cbn [trace]; eauto.
    exists []. now rewrite app_nil_r.
  - rewrite Cleanup_closed. destruct (g_initialized s); cbn [trace]; eauto.
    exists []. now rewrite app_nil_r.
  - rewrite CheckForUpdates_unfold.
    destruct (g_initialized s); cbn [trace]; eauto.
    exists []. now rewrite app_nil_r.
  - exists []. unfold AddObserver. rewrite app_nil_r.
    now destruct (existsb _ _).
  - exists []. now rewrite app_nil_r.
  - exists []. rewrite app_nil_r, invoke_posts. now destruct (task_of cb).
  - apply RunNextTask_trace.
  - exists []. rewrite app_nil_r. unfold DelayElapsed.
    now destruct (delayed_tasks s) as [|[d t] rest].
Qed.

Lemma agent_protocol_app a : forall running b,
  agent_protocol running (a ++ b)
  = match agent_protocol running a with
    | Some running' => agent_protocol running' b
    | None => None
    end.
Proof.
  induction a as [|e a IH]; intros running b; trivial.
  destruct e as [o c|c|c]; cbn [app agent_protocol]; trivial.
  destruct (agent_accepts running c); trivial.
Qed.

Lemma agent_protocol_after running a running' b :
  agent_protocol running a = Some running' ->
  agent_protocol running (a ++ b) = agent_protocol running' b.
Proof. intros H. now rewrite agent_protocol_app, H. Qed.

Lemma agent_protocol_status_notifications running status error_message obs :
  agent_protocol running (status_notifications status error_message obs)
  = Some running.
Proof.
  unfold status_notifications, calls_to.
  induction obs as [|o obs IH]; trivial. cbn [flat_map].
  now destruct (negb (empty error_message)).
Qed.

Lemma agent_protocol_checking_notifications running obs :
  agent_protocol running (checking_notifications obs) = Some running.
Proof. induction obs as [|o obs IH]; trivial. Qed.

Lemma run_task_protocol t s :
  agent_protocol false (trace s) = Some (g_initialized s) ->
  agent_protocol false (trace (run_task host t s))
  = Some (g_initialized (run_task host t s)).
Proof.
  intros H. destruct t; cbn [run_task].
  - rewrite SetStatusOnUIThread_closed. cbn [trace g_initialized].
    rewrite (agent_protocol_after _ _ _ _ H).
    apply agent_protocol_status_notifications.
  - rewrite HandleUpdateReadyOnUIThread_closed. cbn [trace g_initialized].
    rewrite (agent_protocol_after _ _ _ _ H).
    rewrite (agent_protocol_after _ _ _ _
               (agent_protocol_status_notifications _ _ _ _)).
    destruct (build_state_available host); reflexivity.
  - destruct (g_initialized s) eqn:Hi; try congruence.
    unfold emit. cbn [trace g_initialized].
    rewrite (agent_protocol_after _ _ _ _ H); rewrite ?Hi; reflexivity.
  - unfold emit. cbn [trace g_initialized].
    rewrite (agent_protocol_after _ _ _ _ H); reflexivity.
  - rewrite CheckForUpdates_unfold. destruct (g_initialized s) eqn:Hi; try congruence.
    cbn [trace g_initialized].
    rewrite (agent_protocol_after _ _ _ _ H); rewrite ?Hi.
    apply agent_protocol_checking_notifications.
Qed.

Lemma step_protocol s e :
  agent_protocol false (trace s) = Some (g_initialized s) ->
  agent_protocol false (trace (step host s e))
  = Some (g_initialized (step host s e)).
Proof.
  intros H. destruct e; cbn [step].
  - rewrite Initialize_closed. destruct (g_initialized s) eqn:Hi; try congruence.
    cbn [trace g_initialized].
    rewrite (agent_protocol_after _ _ _ _ H); reflexivity.
  - rewrite Cleanup_closed. destruct (g_initialized s) eqn:Hi; try congruence.
    cbn [trace g_initialized].
    rewrite (agent_protocol_after _ _ _ _ H); reflexivity.
  - now apply (run_task_protocol CheckForUpdatesTask).
  - unfold AddObserver. now destruct (existsb _ _).
  - exact H.
  - rewrite invoke_posts. now destruct (task_of cb).
  - unfold RunNextTask. destruct (ui_tasks s) as [|t rest]; trivial.
    now apply run_task_protocol.
  - unfold DelayElapsed. now destruct (delayed_tasks s) as [|[d t] rest].
Qed.

End Reachable.

(** X1.  In every run from the start of the process the calls to the
    agent come in the order it accepts: configuration and registration
    only while it is stopped, [win_sparkle_init] and [win_sparkle_cleanup]
    in turn, a check only between the two; and the agent runs exactly
    when the glue says it is enabled. *)
Theorem agent_calls_follow_the_protocol host es :
  agent_protocol false (trace (run host es initial_state))
  = Some (IsEnabled (run host es initial_state)).
Proof.
  unfold IsEnabled.
  apply (run_invariant host
           (fun s => agent_protocol false (trace s) = Some (g_initialized s))).
  - intros s e. apply step_protocol.
  - reflexivity.
Qed.

(** * What the queue still owes to the agent and the host *)

Section Owed.

Variable host : HostEnv.
Variable p : Effect -> bool.
Hypothesis p_notify : forall o c, p (Notify o c) = false.

Lemma count_effect_app a b :
  count_effect p (a ++ b) = count_effect p a + count_effect p b.
Proof. unfold count_effect. now rewrite filter_app, length_app. Qed.

Lemma count_status_notifications status error_message obs :
  count_effect p (status_notifications status error_message obs) = 0.
Proof.
  unfold status_notifications, calls_to.
  induction obs as [|o obs IH]; trivial. cbn [flat_map].
  rewrite count_effect_app, IH. unfold count_effect.
  destruct (negb (empty error_message)); cbn [filter]; rewrite !p_notify;
    reflexivity.
Qed.

Lemma count_checking_notifications obs :
  count_effect p (checking_notifications obs) = 0.
Proof.
  unfold count_effect, checking_notifications.
  induction obs as [|o obs IH]; trivial. cbn [map filter].
  now rewrite p_notify.
Qed.

Lemma run_task_owed t s :
  count_effect p (trace (run_task host t s))
  + count_effect p
      (flat_map (owed host (g_initialized s)) (posted_by (g_initialized s) t))
  = count_effect p (trace s) + count_effect p (owed host (g_initialized s) t).
Proof.
  destruct t; cbn [run_task posted_by owed flat_map].
  - rewrite SetStatusOnUIThread_closed. cbn [trace].
    now rewrite count_effect_app, count_status_notifications.
  - rewrite HandleUpdateReadyOnUIThread_closed. cbn [trace].
    rewrite !count_effect_app, count_status_notifications.
    cbn. lia.
  - destruct (g_initialized s); trivial.
    unfold emit. cbn [trace]. rewrite count_effect_app. cbn. lia.
  - unfold emit. cbn [trace]. rewrite count_effect_app. cbn. lia.
  - rewrite CheckForUpdates_unfold. destruct (g_initialized s); trivial.
    cbn [trace flat_map owed]. rewrite app_nil_r.
    rewrite count_effect_app, count_checking_notifications. lia.
Qed.

Lemma run_turns_owed n : forall s,
  queue_weight (ui_tasks s) <= n ->
  count_effect p (trace (run_turns host n s))
  = count_effect p (trace s)
    + count_effect p (flat_map (owed host (g_initialized s)) (ui_tasks s)).
Proof.
  induction n as [|n IH]; intros s Hw; cbn [run_turns].
  - destruct (ui_tasks s) as [|t rest]; [cbn; lia|].
    unfold queue_weight in Hw. destruct t; cbn in Hw; lia.
  - destruct (ui_tasks s) as [|t rest] eqn:Hq.
    + rewrite RunNextTask_nil by trivial. rewrite IH, Hq; trivial.
      rewrite Hq. cbn. lia.
    + pose proof (RunNextTask_initialized host s) as Hi.
      rewrite (RunNextTask_cons host t rest) in * by trivial.
      pose proof (posted_weight (g_initialized (set_ui_tasks rest s)) t rest)
        as Hpw.
      rewrite IH; rewrite run_task_queue; cbn [ui_tasks set_ui_tasks];
        [|lia].
      rewrite Hi. cbn [g_initialized set_ui_tasks].
      pose proof (run_task_owed t (set_ui_tasks rest s)) as Ht.
      cbn [g_initialized set_ui_tasks trace] in Ht.
      rewrite flat_map_app, !count_effect_app. cbn [flat_map].
      rewrite count_effect_app. lia.
Qed.

Lemma drain_owed s :
  count_effect p (trace (drain host s))
  = count_effect p (trace s)
    + count_effect p (flat_map (owed host (g_initialized s)) (ui_tasks s)).
Proof. apply run_turns_owed. unfold queue_weight. lia. Qed.

End Owed.


Lemma Cleanup_disables s : g_initialized (Cleanup s) = false.
Proof. rewrite Cleanup_closed. now destruct (g_initialized s) eqn:H. Qed.

Lemma Cleanup_PostTask t s : Cleanup (PostTask t s) = PostTask t (Cleanup s).
Proof.
  rewrite !Cleanup_closed. unfold PostTask. cbn [g_initialized set_ui_tasks].
  now destruct (g_initialized s).
Qed.


(** X3.  On an initialised controller every call of [CheckForUpdates]
    reaches the agent: after [k] calls and the processing of the queue the
    agent has been asked to check [k] more times than without them. *)
Theorem every_check_reaches_the_agent host k s :
  IsEnabled s = true ->
  count_effect is_check_call
    (trace (drain host (Nat.iter k CheckForUpdates s)))
  = count_effect is_check_call (trace (drain host s)) + k.
Proof.
  unfold IsEnabled. intros Hinit.
  assert (Hk : g_initialized (Nat.iter k CheckForUpdates s) = true
               /\ count_effect is_check_call
                    (trace (drain host (Nat.iter k CheckForUpdates s)))
                  = count_effect is_check_call (trace (drain host s)) + k).
  { induction k as [|k [IHi IHc]]; simpl Nat.iter; [split; [trivial|lia]|].
    set (x := Nat.iter k CheckForUpdates s) in *.
    rewrite CheckForUpdates_unfold, IHi. cbn [g_initialized]. split; trivial.
    rewrite drain_owed in * by reflexivity.
    cbn [trace ui_tasks g_initialized]. rewrite IHi in *.
    rewrite flat_map_app, !count_effect_app,
      count_checking_notifications by reflexivity.
    cbn. lia. }
  apply Hk.
Qed.

Lemma every_check_reaches_the_agent_witness :
  IsEnabled watched_check = true
  /\ count_effect is_check_call
       (trace (drain plain_host (Nat.iter 3 CheckForUpdates watched_check)))
     = 4.
Proof.
  split; [reflexivity|].
  now rewrite (every_check_reaches_the_agent plain_host 3 watched_check
                 eq_refl).
Defined.

(** X9.  A request of the agent to shut down changes none of the globals
    and, once processed, calls [chrome::CloseAllBrowsersAndQuit] exactly
    once, whether the glue is initialised or not. *)
Theorem shutdown_request_only_quits host s :
  globals (drain host (ShutdownRequestCallback s)) = globals (drain host s)
  /\ count_effect is_quit_call (trace (drain host (ShutdownRequestCallback s)))
     = count_effect is_quit_call (trace (drain host s)) + 1.
Proof.
  unfold ShutdownRequestCallback. split.
  - rewrite drain_PostTask.
    now destruct (globals (drain host s)) as [[[[i st] r] v] e].
  - rewrite !drain_owed by reflexivity. unfold PostTask.
    cbn [trace ui_tasks g_initialized set_ui_tasks].
    rewrite flat_map_app, count_effect_app. cbn. lia.
Qed.

(** X4.  [Initialize] on a controller that is not initialised and has
    nothing queued leaves the status [kIdle] and asks the agent for no
    check by itself.  With the switch winsparkle-force-check one
    [CheckForUpdates] waits for its delay; once the delay has elapsed and
    the queue is processed the status is [kChecking] and the agent has
    been asked to check once.  Without the switch nothing follows. *)
Theorem forced_check_waits_for_its_delay host s :
  g_initialized s = false ->
  ui_tasks s = [] ->
  delayed_tasks s = [] ->
  GetStatus (drain host (Initialize host s)) = kIdle
  /\ count_effect is_check_call (trace (drain host (Initialize host s)))
     = count_effect is_check_call (trace s)
  /\ GetStatus (drain host (DelayElapsed (Initialize host s)))
     = (if force_check host then kChecking else kIdle)
  /\ count_effect is_check_call
       (trace (drain host (DelayElapsed (Initialize host s))))
     = count_effect is_check_call (trace s)
       + (if force_check host then 1 else 0).
Proof.
  intros Hi Hq Hd. unfold GetStatus.
  assert (Hcalls : count_effect is_check_call (Initialize_calls host) = 0)
    by reflexivity.
  pose (ready := mkState true kIdle (g_update_ready s) (g_pending_version s)
                   (g_last_error s) (observers s) [] []
                   (trace s ++ Initialize_calls host)).
  assert (Hinit : Initialize host s
                  = set_delayed_tasks
                      (if force_check host
                       then [(2%Z, CheckForUpdatesTask)] else []) ready).
  { rewrite Initialize_closed, Hi, Hq, Hd. reflexivity. }
  rewrite Hinit. clear Hinit.
  assert (Hstatus : forall x st,
             globals (drain host x)
             = (true, st, g_update_ready s, g_pending_version s,
                g_last_error s) ->
             g_status (drain host x) = st)
    by (unfold globals; intros; congruence).
  destruct (force_check host).
  - change (DelayElapsed (set_delayed_tasks [(2%Z, CheckForUpdatesTask)] ready))
      with (PostTask CheckForUpdatesTask ready).
    split; [|split; [|split]].
    + apply Hstatus. rewrite drain_globals. reflexivity.
    + rewrite drain_owed by reflexivity. cbn [trace ui_tasks set_delayed_tasks
        ready flat_map]. rewrite count_effect_app, Hcalls. cbn. lia.
    + apply Hstatus. rewrite drain_globals. reflexivity.
    + rewrite drain_owed by reflexivity. unfold PostTask.
      cbn [trace ui_tasks set_ui_tasks g_initialized ready app flat_map owed].
      rewrite !count_effect_app, Hcalls. cbn. lia.
  - change (set_delayed_tasks [] ready) with ready.
    change (DelayElapsed ready) with ready.
    assert (Hnone : count_effect is_check_call (trace (drain host ready))
                    = count_effect is_check_call (trace s)).
    { rewrite drain_owed by reflexivity. cbn [trace ui_tasks ready flat_map].
      rewrite count_effect_app, Hcalls. cbn. lia. }
    split; [|split; [|split]];
      try (apply Hstatus; rewrite drain_globals; reflexivity);
      rewrite Hnone; lia.
Qed.

Lemma forced_check_waits_for_its_delay_witness :
  g_initialized initial_state = false
  /\ ui_tasks initial_state = []
  /\ delayed_tasks initial_state = []
  /\ GetStatus
       (drain testing_host
          (DelayElapsed (Initialize testing_host initial_state)))
     = kChecking.
Proof.
  repeat (split; [reflexivity|]).
  apply (forced_check_waits_for_its_delay testing_host initial_state);
    reflexivity.
Defined.

(** X8.  [Cleanup] does not empty the queue: a callback the agent entered
    before [Cleanup] still makes its transition when the UI thread runs
    its task afterwards, on a glue that is no longer enabled; after the
    download-complete callback [IsUpdateReady] is true again, and a second
    [Cleanup] changes nothing. *)
Theorem callback_before_Cleanup_still_lands host cb s :
  IsEnabled (drain host (Cleanup (invoke cb s))) = false
  /\ GetStatus (drain host (Cleanup (invoke cb s)))
     = transition (GetStatus (drain host (Cleanup s))) cb
  /\ (cb = cb_UpdateDownloaded ->
      IsUpdateReady (drain host (Cleanup (invoke cb s))) = true)
  /\ Cleanup (drain host (Cleanup (invoke cb s)))
     = drain host (Cleanup (invoke cb s)).
Proof.
  assert (Hswap : Cleanup (invoke cb s) = invoke cb (Cleanup s)).
  { rewrite !invoke_posts. destruct (task_of cb); trivial.
    apply Cleanup_PostTask. }
  assert (Hoff : g_initialized (drain host (Cleanup (invoke cb s))) = false).
  { unfold drain. now rewrite run_turns_initialized, Cleanup_disables. }
  unfold IsEnabled, GetStatus, IsUpdateReady.
  split; [exact Hoff|]. split; [|split].
  - rewrite Hswap. apply drain_invoke_status.
  - intros ->. rewrite Hswap. cbn [invoke]. unfold UpdateDownloadedCallback.
    pose proof (drain_PostTask host (HandleUpdateReadyTask "latest"%string)
                  (Cleanup s)) as Hg.
    unfold globals in Hg. cbn [task_globals] in Hg. congruence.
  - now apply Cleanup_uninitialized.
Qed.

Lemma callback_before_Cleanup_still_lands_witness :
  GetStatus
    (drain plain_host
       (Cleanup (invoke cb_UpdateDownloaded
                   (Initialize plain_host initial_state))))
  = kReadyToInstall
  /\ IsUpdateReady
       (drain plain_host
          (Cleanup (invoke cb_UpdateDownloaded
                      (Initialize plain_host initial_state))))
     = true.
Proof.
  split; [reflexivity|].
  apply (callback_before_Cleanup_still_lands plain_host cb_UpdateDownloaded
           (Initialize plain_host initial_state)).
  reflexivity.
Defined.

(** * What the glue can reach *)

Section Coherent.

Variable host : HostEnv.

Lemma status_notifications_expected status error_message obs :
  status_expected status ->
  empty error_message = true \/ error_message = "Update check failed"%string ->
  Forall effect_expected (status_notifications status error_message obs).
Proof.
  intros Hst Hmsg. unfold status_notifications, calls_to.
  induction obs as [|o obs IH]; cbn [flat_map]; [constructor|].
  apply Forall_app. split; trivial.
  destruct Hmsg as [He | ->].
  - rewrite He. repeat constructor; exact Hst || apply Hst.
  - repeat constructor; exact Hst || apply Hst.
Qed.

Lemma checking_notifications_expected obs :
  Forall effect_expected (checking_notifications obs).
Proof.
  unfold checking_notifications.
  induction obs as [|o obs IH]; cbn [map]; constructor; trivial.
  split; discriminate.
Qed.

Lemma initial_state_coherent : coherent initial_state.
Proof.
  unfold coherent, status_expected. cbn.
  repeat split; try constructor; auto; discriminate.
Qed.

Lemma CheckForUpdates_coherent s : coherent s -> coherent (CheckForUpdates s).
Proof.
  intros H. rewrite CheckForUpdates_unfold.
  destruct (g_initialized s); trivial.
  destruct H as (Hq & Hd & Hst & Herr & Hle & Hrdy & Hrs & Htr).
  unfold coherent, status_expected.
  cbn [g_status g_last_error g_update_ready g_pending_version ui_tasks
       delayed_tasks trace].
  repeat split; trivial; try discriminate.
  - apply Forall_app. split; trivial. repeat constructor.
  - apply Forall_app. auto using checking_notifications_expected.
Qed.

Lemma run_task_coherent t s :
  task_expected t -> coherent s -> coherent (run_task host t s).
Proof.
  intros Ht H. destruct t; cbn [run_task]; cbn [task_expected] in Ht.
  - destruct H as (Hq & Hd & Hst & Herr & Hle & Hrdy & Hrs & Htr).
    rewrite SetStatusOnUIThread_closed.
    unfold coherent, status_expected.
    cbn [g_status g_last_error g_update_ready g_pending_version ui_tasks
         delayed_tasks trace].
    destruct Ht as [[-> ->] | [Hs ->]].
    + cbn [empty]. repeat split; trivial; try discriminate; auto.
      apply Forall_app. split; trivial.
      apply status_notifications_expected; [split; discriminate | auto].
    + cbn [empty].
      assert (Hexp : status_expected status)
        by (destruct Hs as [-> | [-> | ->]]; split; discriminate).
      repeat split; trivial; try apply Hexp;
        try (destruct Hs as [-> | [-> | ->]]; discriminate).
      apply Forall_app. split; trivial.
      apply status_notifications_expected; auto.
  - destruct H as (Hq & Hd & Hst & Herr & Hle & Hrdy & Hrs & Htr). subst.
    rewrite HandleUpdateReadyOnUIThread_closed.
    unfold coherent, status_expected.
    cbn [g_status g_last_error g_update_ready g_pending_version ui_tasks
         delayed_tasks trace].
    repeat split; trivial; try discriminate.
    apply Forall_app. split; trivial.
    apply Forall_app. split.
    + apply status_notifications_expected; [split; discriminate | auto].
    + destruct (build_state_available host); repeat constructor.
  - destruct (g_initialized s); trivial.
    destruct H as (Hq & Hd & Hst & Herr & Hle & Hrdy & Hrs & Htr).
    unfold coherent, emit.
    cbn [g_status g_last_error g_update_ready g_pending_version ui_tasks
         delayed_tasks trace].
    repeat split; trivial; try apply Hst.
    apply Forall_app. split; trivial. repeat constructor.
  - destruct H as (Hq & Hd & Hst & Herr & Hle & Hrdy & Hrs & Htr).
    unfold coherent, emit.
    cbn [g_status g_last_error g_update_ready g_pending_version ui_tasks
         delayed_tasks trace].
    repeat split; trivial; try apply Hst.
    apply Forall_app. split; trivial. repeat constructor.
  - now apply CheckForUpdates_coherent.
Qed.

Lemma step_coherent s e : coherent s -> coherent (step host s e).
Proof.
  intros H. destruct e; cbn [step].
  - destruct H as (Hq & Hd & Hst & Herr & Hle & Hrdy & Hrs & Htr).
    rewrite Initialize_closed. destruct (g_initialized s).
    + unfold coherent. auto 10.
    + unfold coherent, status_expected.
      cbn [g_status g_last_error g_update_ready g_pending_version ui_tasks
           delayed_tasks trace].
      repeat split; trivial; try discriminate.
      * apply Forall_app. split; trivial.
        destruct (force_check host); repeat constructor.
      * apply Forall_app. split; trivial.
        unfold Initialize_calls. repeat constructor.
  - destruct H as (Hq & Hd & Hst & Herr & Hle & Hrdy & Hrs & Htr).
    rewrite Cleanup_closed. destruct (g_initialized s).
    + unfold coherent, status_expected.
      cbn [g_status g_last_error g_update_ready g_pending_version ui_tasks
           delayed_tasks trace].
      repeat split; trivial; try discriminate; auto.
      apply Forall_app. split; trivial. repeat constructor.
    + unfold coherent. auto 10.
  - now apply CheckForUpdates_coherent.
  - unfold AddObserver. now destruct (existsb _ _).
  - exact H.
  - destruct H as (Hq & Hd & Hst & Herr & Hle & Hrdy & Hrs & Htr).
    rewrite invoke_posts.
    destruct cb; cbn [task_of]; unfold coherent, PostTask;
      cbn [g_status g_last_error g_update_ready g_pending_version ui_tasks
           delayed_tasks trace set_ui_tasks];
      repeat split; trivial; try apply Hst;
      apply Forall_app; split; trivial;
      (apply Forall_cons; [cbn [task_expected]; auto 8 | constructor]).
  - unfold RunNextTask. destruct (ui_tasks s) as [|t rest] eqn:Hq; trivial.
    destruct H as (Hrest & Hd & Hst & Herr & Hle & Hrdy & Hrs & Htr).
    rewrite Hq in Hrest. inversion Hrest as [|? ? Hhead Htail]; subst.
    apply run_task_coherent; trivial.
    unfold coherent; cbn; auto 10.
  - unfold DelayElapsed.
    destruct (delayed_tasks s) as [|[delay t] rest] eqn:Hdq; trivial.
    destruct H as (Hq & Hd & Hst & Herr & Hle & Hrdy & Hrs & Htr).
    rewrite Hdq in Hd. inversion Hd as [|? ? Hhead Htail]; subst.
    cbn [snd] in Hhead. subst.
    unfold coherent, PostTask; cbn.
    repeat split; trivial; try apply Hst.
    apply Forall_app. split; trivial. repeat constructor.
Qed.

Lemma run_coherent es : coherent (run host es initial_state).
Proof.
  apply (run_invariant host coherent step_coherent), initial_state_coherent.
Qed.

End Coherent.

(** X5.  No run from the start of the process makes the status
    [kDownloading] or [kInstalling], and no observer is ever told of a
    download's progress: the two values of the enumeration and
    [OnWinSparkleProgress] are never used. *)
Theorem status_is_never_downloading host es :
  GetStatus (run host es initial_state) <> kDownloading
  /\ GetStatus (run host es initial_state) <> kInstalling
  /\ forall o percent,
       ~ In (Notify o (OnWinSparkleProgress percent))
           (trace (run host es initial_state)).
Proof.
  destruct (run_coherent host es)
    as (_ & _ & (Hd & Hi) & _ & _ & _ & _ & Htr).
  unfold GetStatus. repeat split; trivial.
  intros o percent Hin. rewrite Forall_forall in Htr.
  exact (Htr _ Hin).
Qed.

(** X6.  In every state the process can reach the last error is empty or
    the fixed text "Update check failed"; while the status is [kError] it
    is that text, and no observer is ever told another error message. *)
Theorem error_text_is_fixed host es :
  (g_last_error (run host es initial_state) = EmptyString
   \/ g_last_error (run host es initial_state) = "Update check failed"%string)
  /\ (GetStatus (run host es initial_state) = kError ->
      g_last_error (run host es initial_state) = "Update check failed"%string)
  /\ (forall o error_message,
        In (Notify o (OnWinSparkleError error_message))
          (trace (run host es initial_state)) ->
        error_message = "Update check failed"%string).
Proof.
  destruct (run_coherent host es)
    as (_ & _ & _ & Herr & Hle & _ & _ & Htr).
  unfold GetStatus. repeat split; trivial.
  intros o error_message Hin. rewrite Forall_forall in Htr.
  exact (Htr _ Hin).
Qed.

Lemma error_text_is_fixed_witness :
  GetStatus
    (run plain_host [EvInitialize; EvCallback cb_Error; EvRunTask]
       initial_state) = kError
  /\ g_last_error
       (run plain_host [EvInitialize; EvCallback cb_Error; EvRunTask]
          initial_state) = "Update check failed"%string.
Proof.
  split; [reflexivity|].
  exact (proj1 (proj2 (error_text_is_fixed plain_host
                         [EvInitialize; EvCallback cb_Error; EvRunTask]))
           eq_refl).
Defined.

(** X7.  In every state the process can reach the pending version is
    "latest" while [IsUpdateReady] is true and empty while it is false,
    and a status of [kReadyToInstall] comes with [IsUpdateReady]. *)
Theorem pending_version_follows_IsUpdateReady host es :
  g_pending_version (run host es initial_state)
  = (if IsUpdateReady (run host es initial_state)
     then "latest"%string else EmptyString)
  /\ (GetStatus (run host es initial_state) = kReadyToInstall ->
      IsUpdateReady (run host es initial_state) = true).
Proof.
  destruct (run_coherent host es) as (_ & _ & _ & _ & _ & Hv & Hr & _).
  now split.
Qed.

Lemma pending_version_follows_IsUpdateReady_witness :
  GetStatus
    (run plain_host [EvInitialize; EvCallback cb_UpdateDownloaded; EvRunTask]
       initial_state) = kReadyToInstall
  /\ IsUpdateReady
       (run plain_host
          [EvInitialize; EvCallback cb_UpdateDownloaded; EvRunTask]
          initial_state) = true.
Proof.
  split; [reflexivity|].
  exact (proj2 (pending_version_follows_IsUpdateReady plain_host
                  [EvInitialize; EvCallback cb_UpdateDownloaded; EvRunTask])
           eq_refl).
Defined.

(** * The observers *)

Section Observers.

Variable host : HostEnv.

Lemma heard_by_app o a b :
  heard_by o (a ++ b) = heard_by o a ++ heard_by o b.
Proof. apply flat_map_app. Qed.

Lemma heard_by_status_notifications o status error_message obs :
  heard_by o (status_notifications status error_message obs)
  = List.concat (repeat (told status error_message) (registered o obs)).
Proof.
  unfold registered, status_notifications.
  induction obs as [|o' obs IH]; trivial.
  cbn [flat_map count_occ]. rewrite heard_by_app, IH.
  unfold calls_to, told, heard_by.
  destruct (Nat.eq_dec o' o) as [-> | Hne].
  - cbn [flat_map]. rewrite Nat.eqb_refl.
    destruct (negb (empty error_message)); cbn [flat_map]; 
      rewrite ?Nat.eqb_refl; reflexivity.
  - apply Nat.eqb_neq in Hne. cbn [flat_map]. rewrite Hne.
    destruct (negb (empty error_message)); cbn [flat_map]; rewrite ?Hne;
      reflexivity.
Qed.

Lemma heard_by_checking_notifications o obs :
  heard_by o (checking_notifications obs)
  = List.concat
      (repeat [OnWinSparkleStatusChanged kChecking] (registered o obs)).
Proof.
  unfold registered, checking_notifications.
  induction obs as [|o' obs IH]; trivial.
  cbn [map count_occ]. unfold heard_by in *. cbn [flat_map]. rewrite IH.
  destruct (Nat.eq_dec o' o) as [-> | Hne].
  - now rewrite Nat.eqb_refl.
  - apply Nat.eqb_neq in Hne. now rewrite Hne.
Qed.

Lemma concat_repeat_nil {A} n : List.concat (repeat (@nil A) n) = [].
Proof. induction n; trivial. Qed.

Lemma CheckForUpdates_heard o s :
  heard_by o (new_effects s (CheckForUpdates s))
  = List.concat (repeat (task_says (g_initialized s) CheckForUpdatesTask)
              (registered o (observers s))).
Proof.
  cbn [task_says].
  destruct (g_initialized s) eqn:Hi.
  - rewrite (new_effects_app s _ (checking_notifications (observers s))).
    + apply heard_by_checking_notifications.
    + now rewrite CheckForUpdates_unfold, Hi.
  - rewrite (new_effects_app s _ []).
    + now rewrite concat_repeat_nil.
    + now rewrite CheckForUpdates_unfold, Hi, app_nil_r.
Qed.

Lemma run_task_heard o t s :
  heard_by o (new_effects s (run_task host t s))
  = List.concat (repeat (task_says (g_initialized s) t)
              (registered o (observers s))).
Proof.
  destruct t; cbn [run_task task_says].
  - rewrite (new_effects_app s _
               (status_notifications status error_message (observers s)))
      by now rewrite SetStatusOnUIThread_closed.
    apply heard_by_status_notifications.
  - rewrite (new_effects_app s _
               (status_notifications kReadyToInstall EmptyString (observers s)
                ++ (if build_state_available host
                    then [Host (BuildState_SetUpdate version)] else [])))
      by now rewrite HandleUpdateReadyOnUIThread_closed.
    rewrite heard_by_app, heard_by_status_notifications.
    destruct (build_state_available host); now rewrite app_nil_r.
  - rewrite concat_repeat_nil. destruct (g_initialized s).
    + now rewrite (new_effects_app s _ [Agent win_sparkle_check_update_with_ui]).
    + rewrite (new_effects_app s _ []); trivial. now rewrite app_nil_r.
  - rewrite concat_repeat_nil.
    now rewrite (new_effects_app s _ [Host CloseAllBrowsersAndQuit]).
  - apply CheckForUpdates_heard.
Qed.

End Observers.

Lemma step_heard host s e o :
  heard_by o (new_effects s (step host s e))
  = List.concat (repeat (step_says s e) (registered o (observers s))).
Proof.
  destruct e; cbn [step step_says]; rewrite ?concat_repeat_nil.
  - rewrite Initialize_closed. destruct (g_initialized s).
    + rewrite (new_effects_app s s []); trivial. now rewrite app_nil_r.
    + now rewrite (new_effects_app s _ (Initialize_calls host)).
  - rewrite Cleanup_closed. destruct (g_initialized s).
    + now rewrite (new_effects_app s _ [Agent win_sparkle_cleanup]).
    + rewrite (new_effects_app s s []); trivial. now rewrite app_nil_r.
  - apply CheckForUpdates_heard.
  - rewrite (new_effects_app s _ []); trivial.
    rewrite app_nil_r. unfold AddObserver. now destruct (existsb _ _).
  - rewrite (new_effects_app s _ []); trivial. now rewrite app_nil_r.
  - rewrite (new_effects_app s _ []); trivial.
    rewrite app_nil_r, invoke_posts. now destruct (task_of cb).
  - unfold RunNextTask. destruct (ui_tasks s) as [|t rest].
    + rewrite (new_effects_app s s []), ?concat_repeat_nil; trivial.
      now rewrite app_nil_r.
    + apply (run_task_heard host o t (set_ui_tasks rest s)).
  - rewrite (new_effects_app s _ []); trivial.
    rewrite app_nil_r. unfold DelayElapsed.
    now destruct (delayed_tasks s) as [|[d t] rest].
Qed.

(** X10.  Whatever step the glue takes, every observer hears the same
    calls in the same order, once for each time it is in the list of
    observers: two observers registered equally often hear the same, an
    observer that is not registered hears nothing, and a step other than
    [CheckForUpdates] and a UI-thread turn tells nobody anything. *)
Theorem observers_hear_the_same host s e o :
  heard_by o (new_effects s (step host s e))
  = List.concat (repeat (step_says s e) (registered o (observers s)))
  /\ (forall o',
        registered o' (observers s) = registered o (observers s) ->
        heard_by o' (new_effects s (step host s e))
        = heard_by o (new_effects s (step host s e)))
  /\ (~ In o (observers s) ->
      heard_by o (new_effects s (step host s e)) = []).
Proof.
  split; [apply step_heard|]. split.
  - intros o' Hsame. now rewrite !step_heard, Hsame.
  - intros Hout. rewrite step_heard. unfold registered.
    now rewrite (proj1 (count_occ_not_In Nat.eq_dec (observers s) o) Hout).
Qed.

Lemma observers_hear_the_same_witness :
  ~ In 8 (observers watched_check)
  /\ heard_by 8
       (new_effects watched_check (step plain_host watched_check EvRunTask))
     = [].
Proof.
  assert (Hout : ~ In 8 (observers watched_check))
    by (cbn; intros [H | []]; discriminate).
  split; [exact Hout|].
  exact (proj2 (proj2 (observers_hear_the_same plain_host watched_check
                         EvRunTask 8)) Hout).
Defined.

(** * The updater of the help page *)

Section Page.

Import WinSparkleVersionUpdater.

Lemma dispatch_closed u c :
  dispatch u c
  = mkUpdater (this u) (status_callback_ u)
      (ran u ++ reports (status_callback_ u) c).
Proof.
  unfold reports.
  destruct u as [o [cb|] r], c as [st|percent|text]; cbn;
    rewrite ?app_nil_r; trivial.
  destruct st; cbn; rewrite ?app_nil_r; trivial.
Qed.

Lemma fold_dispatch_closed cs : forall u,
  fold_left dispatch cs u
  = mkUpdater (this u) (status_callback_ u)
      (ran u ++ flat_map (reports (status_callback_ u)) cs).
Proof.
  induction cs as [|c cs IH]; intros u.
  - destruct u. cbn. now rewrite app_nil_r.
  - cbn [fold_left flat_map]. rewrite IH, dispatch_closed.
    cbn [this status_callback_ ran]. now rewrite <- app_assoc.
Qed.

Lemma observe_heard effects : forall u,
  observe u effects = fold_left dispatch (heard_by (this u) effects) u.
Proof.
  unfold observe, heard_by.
  induction effects as [|e effects IH]; intros u; trivial.
  cbn [fold_left flat_map]. rewrite IH.
  destruct e as [o c|c|c]; cbn [react]; trivial.
  destruct (Nat.eqb o (this u)); trivial.
  cbn [app fold_left]. now rewrite dispatch_closed.
Qed.

Lemma observe_closed u effects :
  observe u effects
  = mkUpdater (this u) (status_callback_ u)
      (ran u
       ++ flat_map (reports (status_callback_ u))
            (heard_by (this u) effects)).
Proof. now rewrite observe_heard, fold_dispatch_closed. Qed.

Lemma flat_map_concat_repeat {A B} (f : A -> list B) l n :
  flat_map f (List.concat (repeat l n)) = List.concat (repeat (flat_map f l) n).
Proof.
  induction n as [|n IH]; trivial. cbn [repeat List.concat].
  now rewrite flat_map_app, IH.
Qed.

Lemma concat_repeat_one {A} (x : A) n :
  List.concat (repeat [x] n) = repeat x n.
Proof. induction n as [|n IH]; trivial. cbn. now rewrite IH. Qed.

End Page.

(** X11.  [CheckForUpdate] of the updater on an enabled glue runs the
    status callback with [CHECKING] once by itself and once more for each
    time the updater is registered as an observer, because the glue
    notifies its observers before [CheckForUpdates] returns: a registered
    updater reports [CHECKING] twice.  The glue is left as
    [CheckForUpdates] leaves it. *)
Theorem CheckForUpdate_reports_checking_again page u s :
  IsEnabled s = true ->
  WinSparkleVersionUpdater.ran
    (fst (WinSparkleVersionUpdater.CheckForUpdate (Some page) u s))
  = WinSparkleVersionUpdater.ran u
    ++ repeat (page, report WinSparkleVersionUpdater.CHECKING EmptyString)
         (1 + registered (WinSparkleVersionUpdater.this u) (observers s))
  /\ snd (WinSparkleVersionUpdater.CheckForUpdate (Some page) u s)
     = CheckForUpdates s.
Proof.
  intros Hon. unfold WinSparkleVersionUpdater.CheckForUpdate.
  rewrite Hon. cbn [negb fst snd WinSparkleVersionUpdater.status_callback_
                    WinSparkleVersionUpdater.set_status_callback].
  split; trivial.
  rewrite observe_closed, CheckForUpdates_heard.
  unfold IsEnabled in Hon. rewrite Hon.
  cbn [task_says WinSparkleVersionUpdater.ran WinSparkleVersionUpdater.Run
       WinSparkleVersionUpdater.this WinSparkleVersionUpdater.status_callback_
       WinSparkleVersionUpdater.set_status_callback].
  rewrite flat_map_concat_repeat, <- app_assoc.
  cbn [flat_map app]. unfold reports at 1. cbn.
  now rewrite concat_repeat_one.
Qed.

Lemma CheckForUpdate_reports_checking_again_witness :
  IsEnabled (AddObserver 7 (Initialize plain_host initial_state)) = true
  /\ WinSparkleVersionUpdater.ran
       (fst (WinSparkleVersionUpdater.CheckForUpdate (Some 1)
               (WinSparkleVersionUpdater.mkUpdater 7 None [])
               (AddObserver 7 (Initialize plain_host initial_state))))
     = [(1, report WinSparkleVersionUpdater.CHECKING EmptyString);
        (1, report WinSparkleVersionUpdater.CHECKING EmptyString)].
Proof.
  split; [reflexivity|].
  now rewrite (proj1 (CheckForUpdate_reports_checking_again 1
                        (WinSparkleVersionUpdater.mkUpdater 7 None [])
                        (AddObserver 7 (Initialize plain_host initial_state))
                        eq_refl)).
Defined.

(** X12.  What the page is told of each callback of the agent, through
    an updater that holds its callback, once the task of the callback has
    run: an update found gives [UPDATING], none [UPDATED], the
    download-complete entry point [NEARLY_UPDATED]; an error gives
    [FAILED] twice, once for the change of status and once for the error
    message, both with the text "Update check failed"; a cancellation and
    the shutdown callbacks give nothing, although a cancellation sets the
    status of the glue to [kIdle]. *)
Theorem page_hears_callbacks host page u s cb :
  WinSparkleVersionUpdater.status_callback_ u = Some page ->
  ui_tasks s = [] ->
  WinSparkleVersionUpdater.ran
    (fst (world_run host [OfGlue (EvCallback cb); OfGlue EvRunTask] (u, s)))
  = WinSparkleVersionUpdater.ran u
    ++ List.concat
         (repeat (page_reports page cb)
            (registered (WinSparkleVersionUpdater.this u) (observers s)))
  /\ GetStatus
       (snd (world_run host [OfGlue (EvCallback cb); OfGlue EvRunTask] (u, s)))
     = transition (GetStatus s) cb.
Proof.
  intros Hcb Hq. unfold world_run. cbn [fold_left world_step fst snd].
  rewrite !observe_closed, !step_heard.
  cbn [WinSparkleVersionUpdater.this WinSparkleVersionUpdater.status_callback_
       WinSparkleVersionUpdater.ran step_says step].
  rewrite concat_repeat_nil, Hcb. cbn [flat_map]. rewrite app_nil_r.
  rewrite flat_map_concat_repeat, invoke_posts.
  unfold RunNextTask, GetStatus.
  destruct cb; cbn [task_of transition page_reports]; unfold PostTask;
    cbn [ui_tasks set_ui_tasks observers g_initialized]; rewrite ?Hq;
    cbn [app task_says told empty negb flat_map run_task];
    rewrite ?SetStatusOnUIThread_closed,
      ?HandleUpdateReadyOnUIThread_closed;
    cbn [g_status emit set_ui_tasks]; rewrite ?concat_repeat_nil;
    split; trivial.
  unfold reports. cbn. now rewrite concat_repeat_nil.
Qed.

Lemma page_hears_callbacks_witness :
  WinSparkleVersionUpdater.status_callback_
    (WinSparkleVersionUpdater.mkUpdater 7 (Some 1) []) = Some 1
  /\ ui_tasks (AddObserver 7 (Initialize plain_host initial_state)) = []
  /\ WinSparkleVersionUpdater.ran
       (fst (world_run plain_host
               [OfGlue (EvCallback cb_Error); OfGlue EvRunTask]
               (WinSparkleVersionUpdater.mkUpdater 7 (Some 1) [],
                AddObserver 7 (Initialize plain_host initial_state))))
     = [(1, report WinSparkleVersionUpdater.FAILED
              "Update check failed"%string);
        (1, report WinSparkleVersionUpdater.FAILED
              "Update check failed"%string)].
Proof.
  split; [reflexivity|]. split; [reflexivity|].
  now rewrite (proj1 (page_hears_callbacks plain_host 1
                        (WinSparkleVersionUpdater.mkUpdater 7 (Some 1) [])
                        (AddObserver 7 (Initialize plain_host initial_state))
                        cb_Error eq_refl eq_refl)).
Defined.

Section PageInvariant.

Import WinSparkleVersionUpdater.

Variable host : HostEnv.

Lemma report_expected st text :
  st <> DISABLED ->
  text = EmptyString
  \/ (st = FAILED
      /\ (text = "Update check failed"%string
          \/ text = "WinSparkle updater not available"%string)) ->
  call_expected (report st text).
Proof. intros Hst Htext. exists st, text. auto. Qed.

Lemma reports_expected scb c :
  effect_expected (Notify 0 c) ->
  Forall (fun r => call_expected (snd r)) (reports scb c).
Proof.
  unfold reports. intros Hc.
  destruct scb as [page|]; [|destruct c; cbn; constructor].
  destruct c as [st|percent|text]; cbn in *; [| contradiction |].
  - destruct st; cbn; repeat constructor; cbn [snd];
      apply report_expected; try discriminate; auto.
  - subst. repeat constructor. cbn [snd].
    apply report_expected; try discriminate; auto.
Qed.

Lemma heard_expected scb o effects :
  Forall effect_expected effects ->
  Forall (fun r => call_expected (snd r))
    (flat_map (reports scb) (heard_by o effects)).
Proof.
  unfold heard_by.
  induction 1 as [|e effects He Hrest IH]; cbn [flat_map]; [constructor|].
  rewrite flat_map_app. apply Forall_app. split; trivial.
  destruct e as [o' c|c|c]; try constructor.
  destruct (Nat.eqb o' o); cbn [flat_map]; [|constructor].
  rewrite app_nil_r. now apply reports_expected.
Qed.

Lemma observe_expected u effects :
  Forall effect_expected effects ->
  Forall (fun r => call_expected (snd r)) (ran u) ->
  Forall (fun r => call_expected (snd r)) (ran (observe u effects)).
Proof.
  intros He Hu. rewrite observe_closed. cbn [ran].
  apply Forall_app. auto using heard_expected.
Qed.

Lemma new_effects_expected s e :
  coherent s -> Forall effect_expected (new_effects s (step host s e)).
Proof.
  intros H. destruct (step_trace host s e) as [added Hadded].
  rewrite (new_effects_app s _ added Hadded).
  destruct (step_coherent host s e H) as (_ & _ & _ & _ & _ & _ & _ & Htr).
  rewrite Hadded in Htr. now apply Forall_app in Htr.
Qed.

Lemma world_step_expected w e :
  coherent (snd w) /\ Forall (fun r => call_expected (snd r)) (ran (fst w)) ->
  coherent (snd (world_step host w e))
  /\ Forall (fun r => call_expected (snd r)) (ran (fst (world_step host w e))).
Proof.
  destruct w as [u s]. cbn [fst snd]. intros [Hs Hu].
  destruct e as [e|scb]; cbn [world_step fst snd].
  - split; [now apply step_coherent|].
    apply observe_expected; trivial. now apply new_effects_expected.
  - unfold CheckForUpdate.
    destruct (negb (IsEnabled s)); cbn [fst snd].
    + split; trivial.
      destruct scb as [page|]; cbn [status_callback_ set_status_callback Run ran];
        trivial.
      apply Forall_app. split; trivial. repeat constructor. cbn [snd].
      apply (report_expected FAILED); try discriminate; auto.
    + split; [now apply CheckForUpdates_coherent|].
      apply observe_expected.
      * apply (new_effects_expected s EvCheckForUpdates Hs).
      * destruct scb as [page|];
          cbn [status_callback_ set_status_callback Run ran]; trivial.
        apply Forall_app. split; trivial. repeat constructor. cbn [snd].
        apply (report_expected CHECKING); try discriminate; auto.
Qed.

Lemma world_run_expected es : forall w,
  coherent (snd w) /\ Forall (fun r => call_expected (snd r)) (ran (fst w)) ->
  Forall (fun r => call_expected (snd r)) (ran (fst (world_run host es w))).
Proof.
  induction es as [|e es IH]; intros w H; [apply H|].
  apply IH, world_step_expected, H.
Qed.

End PageInvariant.

(** X13.  Whatever the glue and the page do from the start of the
    process, every run of the status callback made by the updater has
    progress 0, no rollback, no powerwash, an empty version and size 0;
    its status is never [DISABLED]; and its message is empty unless the
    status is [FAILED], where it is "Update check failed" or "WinSparkle
    updater not available".  The progress of a download is never
    reported. *)
Theorem page_sees_no_progress host es o :
  Forall (fun r => call_expected (snd r))
    (WinSparkleVersionUpdater.ran
       (fst (world_run host es
               (WinSparkleVersionUpdater.mkUpdater o None [], initial_state)))).
Proof.
  apply world_run_expected. cbn [fst snd WinSparkleVersionUpdater.ran].
  split; [apply initial_state_coherent | constructor].
Qed.

(** X14.  In a build with WinSparkle, [Create] gives the updater of
    WinSparkle from [PostBrowserStart] until [PostMainMessageLoopRun] and
    the basic updater afterwards; in a build without it, always the basic
    one.  After [PostMainMessageLoopRun] an updater of WinSparkle made
    before reports [FAILED] with "WinSparkle updater not available" and
    leaves the glue as it is. *)
Theorem updater_follows_the_lifecycle flag host es o page u :
  no_cleanup es = true ->
  fst (VersionUpdater.Create flag o
         (run host es
            (ChromeBrowserMainExtraPartsWin.PostBrowserStart flag host
               initial_state)))
  = (if flag
     then VersionUpdater.WinSparkle
            (WinSparkleVersionUpdater.mkUpdater o None [])
     else VersionUpdater.Basic)
  /\ fst (VersionUpdater.Create flag o
            (ChromeBrowserMainExtraPartsWin.PostMainMessageLoopRun flag
               (run host es
                  (ChromeBrowserMainExtraPartsWin.PostBrowserStart flag host
                     initial_state))))
     = VersionUpdater.Basic
  /\ WinSparkleVersionUpdater.CheckForUpdate (Some page) u
       (ChromeBrowserMainExtraPartsWin.PostMainMessageLoopRun true
          (run host es
             (ChromeBrowserMainExtraPartsWin.PostBrowserStart true host
                initial_state)))
     = (WinSparkleVersionUpdater.mkUpdater (WinSparkleVersionUpdater.this u)
          (Some page)
          (WinSparkleVersionUpdater.ran u
           ++ [(page, report WinSparkleVersionUpdater.FAILED
                        "WinSparkle updater not available"%string)]),
        ChromeBrowserMainExtraPartsWin.PostMainMessageLoopRun true
          (run host es
             (ChromeBrowserMainExtraPartsWin.PostBrowserStart true host
                initial_state))).
Proof.
  intros Hes.
  unfold VersionUpdater.Create, ChromeBrowserMainExtraPartsWin.PostBrowserStart,
    ChromeBrowserMainExtraPartsWin.PostMainMessageLoopRun,
    WinSparkleVersionUpdater.CheckForUpdate, IsEnabled.
  rewrite !Cleanup_disables.
  split; [|split]; trivial.
  - destruct flag; trivial. cbn [andb].
    now rewrite (run_keeps_initialized host es _ Hes
                   (Initialize_sets_initialized host initial_state)).
  - destruct flag; trivial. now rewrite Cleanup_disables.
Qed.

Lemma updater_follows_the_lifecycle_witness :
  no_cleanup later_events = true
  /\ fst (VersionUpdater.Create true 7
            (run plain_host later_events
               (ChromeBrowserMainExtraPartsWin.PostBrowserStart true plain_host
                  initial_state)))
     = VersionUpdater.WinSparkle
         (WinSparkleVersionUpdater.mkUpdater 7 None []).
Proof.
  split; [reflexivity|].
  exact (proj1 (updater_follows_the_lifecycle true plain_host later_events 7 1
                  (WinSparkleVersionUpdater.mkUpdater 7 None []) eq_refl)).
Defined.

(** X15.  [Cleanup] followed by [Initialize] is a restart: the six native
    callbacks are registered with the agent once more, the controller is
    enabled with status [kIdle], no update ready, no pending version and no
    last error, and the observers registered before are still there. *)
Theorem restart_registers_again host s :
  IsEnabled s = true ->
  registrations (trace (Initialize host (Cleanup s)))
  = registrations (trace s) ++ the_six_registrations
  /\ observers (Initialize host (Cleanup s)) = observers s
  /\ globals (Initialize host (Cleanup s))
     = (true, kIdle, false, EmptyString, EmptyString).
Proof.
  unfold IsEnabled. intros Hon.
  rewrite Initialize_registrations, Cleanup_disables.
  rewrite Initialize_closed, Cleanup_disables.
  rewrite !(Cleanup_initialized s Hon). cbn [trace observers globals
    g_initialized g_status g_update_ready g_pending_version g_last_error].
  rewrite registrations_app. cbn. now rewrite app_nil_r.
Qed.

Lemma restart_registers_again_witness :
  IsEnabled watched_check = true
  /\ observers (Initialize plain_host (Cleanup watched_check)) = [7].
Proof.
  split; [reflexivity|].
  exact (proj1 (proj2 (restart_registers_again plain_host watched_check
                         eq_refl))).
Defined.

(** X16.  The glue never adds or drops an observer by itself: along every
    run without [AddObserver] and [RemoveObserver] the list of observers
    stays as it was, through [Initialize], [Cleanup], checks, callbacks
    and the tasks of the UI thread. *)
Theorem observers_are_kept host es s :
  forallb (fun e => negb (changes_observers e)) es = true ->
  observers (run host es s) = observers s.
Proof.
  revert s. induction es as [|e es IH]; intros s Hes; trivial.
  cbn [forallb] in Hes. apply andb_true_iff in Hes as [He Hes].
  unfold run in *. cbn [fold_left]. rewrite (IH _ Hes).
  destruct e; try discriminate; cbn [step].
  - rewrite Initialize_closed. now destruct (g_initialized s).
  - rewrite Cleanup_closed. now destruct (g_initialized s).
  - rewrite CheckForUpdates_unfold. now destruct (g_initialized s).
  - rewrite invoke_posts. now destruct (task_of cb).
  - unfold RunNextTask. destruct (ui_tasks s) as [|t rest]; trivial.
    destruct t; cbn [run_task];
      rewrite ?SetStatusOnUIThread_closed, ?HandleUpdateReadyOnUIThread_closed,
        ?CheckForUpdates_unfold;
      cbn [g_initialized set_ui_tasks];
      try destruct (g_initialized s); reflexivity.
  - unfold DelayElapsed. now destruct (delayed_tasks s) as [|[d t] rest].
Qed.

Lemma observers_are_kept_witness :
  forallb (fun e => negb (changes_observers e))
    [EvCleanup; EvInitialize; EvCallback cb_Error; EvRunTask; EvRunTask] = true
  /\ observers
       (run plain_host
          [EvCleanup; EvInitialize; EvCallback cb_Error; EvRunTask; EvRunTask]
          watched_check) = [7].
Proof.
  split; [reflexivity|].
  exact (observers_are_kept plain_host
           [EvCleanup; EvInitialize; EvCallback cb_Error; EvRunTask; EvRunTask]
           watched_check eq_refl).
Defined.
